(** * CharactorDurationMelDataset (tensorflow_tts/datasets/fastspeech_dataset.py)

    A shallow embedding of the dataset class: construction of the sample
    index ([__init__]), the example generator, and the padded-batch
    pipeline built by [create].  Library calls the class relies on
    (file discovery, [np.argsort], [random.shuffle], the dataset shuffle)
    are parameters of the development together with the part of their
    contract that is used. *)

From Stdlib Require Import ZArith Ascii String.
From stdpp Require Import base list strings sorting.

Local Open Scope string_scope.
Local Open Scope list_scope.

(** ** Exceptions, warnings and the construction monad *)

Inductive assert_msg :=
| NoMelFiles (root_dir : string)
    (* "Not found any mels files in ${root_dir}." *)
| CountMismatch (n_mel n_charactor n_duration : nat).
    (* "Number of charactor, mel and duration files are different (m vs c vs d)." *)

Inductive exn :=
| AssertionError (msg : assert_msg)
| IndexError
| UnboundLocalError (var : string)
| StructureError (n_shapes n_components : nat)
| TypeError
| ShapeError
| InvalidArgument.

Inductive result (A : Type) :=
| Ok (a : A)
| Raise (e : exn).
Arguments Ok {A} a.
Arguments Raise {A} e.

Inductive log_record :=
| Warning_filtered (n_before n_after : nat).
    (* "Some files are filtered by mel length threshold (before -> after)." *)

Global Instance result_ret : MRet result := fun A a => Ok a.
Global Instance result_bind : MBind result := fun A B k m =>
  match m with
  | Ok a => k a
  | Raise e => Raise e
  end.

(** ** Strings: [in], [str.replace], [os.path.basename], [sorted] *)

(** [sub in s] for Python strings. *)
Fixpoint str_in (sub s : string) : bool :=
  String.prefix sub s
  || match s with
     | EmptyString => false
     | String _ t => str_in sub t
     end.

(** [s.replace(old, new)] for a non-empty [old]: scan left to right; at an
    occurrence of [old] emit [new] and skip the occurrence. [skip] counts
    the characters of the current occurrence still to be dropped. *)
Fixpoint replace_from (old new : string) (skip : nat) (s : string) : string :=
  match s with
  | EmptyString => EmptyString
  | String c t =>
      match skip with
      | S k => replace_from old new k t
      | O =>
          if String.prefix old s
          then new +:+ replace_from old new (String.length old - 1) t
          else String c (replace_from old new 0 t)
      end
  end.

Definition str_replace (old new s : string) : string := replace_from old new 0 s.

Fixpoint has_sep (p : string) : bool :=
  match p with
  | EmptyString => false
  | String c t => Ascii.eqb c "/" || has_sep t
  end.

(** [os.path.basename(p)]: [p[p.rfind('/') + 1:]]. *)
Fixpoint basename (p : string) : string :=
  match p with
  | EmptyString => EmptyString
  | String c t =>
      if has_sep t then basename t
      else if Ascii.eqb c "/" then t else p
  end.

(** [sorted] on a list of [str]: the order is total and equal keys are equal
    strings, so the result does not depend on the sorting algorithm. *)
Fixpoint sorted_insert (x : string) (l : list string) : list string :=
  match l with
  | [] => [x]
  | y :: t => if String.leb x y then x :: l else y :: sorted_insert x t
  end.

Fixpoint sorted (l : list string) : list string :=
  match l with
  | [] => []
  | x :: t => sorted_insert x (sorted t)
  end.

(** ** Arrays and tensors *)

(** [arr[idxs]] for a list comprehension [[arr[idx] for idx in idxs]] and
    for numpy integer-array indexing alike (all indices here are
    non-negative): an index past the end raises [IndexError]. *)
Definition take_idx {A} (arr : list A) (idxs : list nat) : result (list A) :=
  mapM (fun idx => match arr !! idx with
                   | Some x => Ok x
                   | None => Raise IndexError
                   end) idxs.

(** [itertools.groupby(l, lambda a: a[1])]: maximal runs of consecutive
    entries with equal second component. *)
Fixpoint groupby {A} (l : list (A * nat)) : list (list (A * nat)) :=
  match l with
  | [] => []
  | x :: t =>
      match groupby t with
      | (y :: g) :: gs =>
          if Nat.eqb (snd x) (snd y) then (x :: y :: g) :: gs
          else [x] :: (y :: g) :: gs
      | _ => [[x]]
      end
  end.

Inductive dtype := tf_int32 | tf_float32 | tf_string.

(** A [tf.data] pipeline: the structure of its elements and the outcome of
    one full iteration. An exception raised while the pipeline is being
    built is reported by [iterate] as well. *)
Record tf_dataset (E : Type) := {
  element_spec : list dtype;
  iterate : result (list E)
}.
Arguments element_spec {E} _.
Arguments iterate {E} _.

(** Consecutive batches of [n] elements; the last one may be shorter. *)
Fixpoint chunks_fuel {A} (fuel n : nat) (l : list A) : list (list A) :=
  match fuel, l with
  | S fuel', _ :: _ => take n l :: chunks_fuel fuel' n (drop n l)
  | _, _ => []
  end.

Definition chunks {A} (n : nat) (l : list A) : list (list A) :=
  chunks_fuel (length l) n l.

(** A 2-D array of shape [(length rows, shape1)]; every row of an array
    read from a file has [shape1] entries. *)
Record ndarray2 (F : Type) := Ndarray2 { shape1 : nat; rows : list (list F) }.
Arguments Ndarray2 {F} _ _.
Arguments shape1 {F} _.
Arguments rows {F} _.

Definition shape0 {F} (m : ndarray2 F) : nat := length (rows m).

(** The components of a generated example. *)
Inductive tensor (F : Type) :=
| TStr (s : string)
| TInt (v : list Z)
| TFloat (m : ndarray2 F).
Arguments TStr {F} s.
Arguments TInt {F} v.
Arguments TFloat {F} m.

(** A component of a batch: the examples' components stacked. *)
Inductive batched (F : Type) :=
| BStr (ss : list string)
| BInt (vs : list (list Z))
| BFloat (ms : list (ndarray2 F)).
Arguments BStr {F} ss.
Arguments BInt {F} vs.
Arguments BFloat {F} ms.

(** ** Example collaborators and data

    A small directory tree with a glob that understands ["*suffix"], table
    driven loaders, two index sorts (one stable, one that reverses ties)
    and a shuffle that reverses its argument. *)

Definition ends_with (suffix s : string) : bool :=
  Nat.leb (String.length suffix) (String.length s)
  && String.eqb
       (String.substring (String.length s - String.length suffix)
          (String.length suffix) s)
       suffix.

Definition glob (query f : string) : bool :=
  match query with
  | String "*" suffix => ends_with suffix f
  | _ => String.eqb query f
  end.

Definition find_in (tree : list string) (root_dir query : string) : list string :=
  List.filter (fun f => String.prefix root_dir f && glob query f) tree.

Definition table_lookup {A} (default : A) (table : list (string * A)) (f : string) : A :=
  match List.find (fun entry => String.eqb (fst entry) f) table with
  | Some entry => snd entry
  | None => default
  end.

(** A mel array of [frames] rows and [width] columns filled with ones. *)
Definition mel_of_shape (shape : nat * nat) : ndarray2 Z :=
  Ndarray2 (snd shape) (replicate (fst shape) (replicate (snd shape) 1%Z)).

Definition load_mel (table : list (string * (nat * nat))) (f : string) : ndarray2 Z :=
  mel_of_shape (table_lookup (0, 0) table f).

Definition load_ints (table : list (string * nat)) (f : string) : list Z :=
  replicate (table_lookup 0 table f) 7%Z.

Definition key (lens : list nat) (i : nat) : nat := default 0 (lens !! i).

(** Order by length, ties by increasing index. *)
Definition stable_le (lens : list nat) (i j : nat) : Prop :=
  key lens i < key lens j \/ (key lens i = key lens j /\ i <= j).

(** Order by length, ties by decreasing index. *)
Definition ties_reversed_le (lens : list nat) (i j : nat) : Prop :=
  key lens i < key lens j \/ (key lens i = key lens j /\ j <= i).

Global Instance stable_le_dec lens : RelDecision (stable_le lens) :=
  fun i j => decide (key lens i < key lens j \/ (key lens i = key lens j /\ i <= j)).

Global Instance ties_reversed_le_dec lens : RelDecision (ties_reversed_le lens) :=
  fun i j => decide (key lens i < key lens j \/ (key lens i = key lens j /\ j <= i)).

Definition argsort_stable (lens : list nat) : list nat :=
  merge_sort (stable_le lens) (seq 0 (length lens)).


Definition reverse_groups (gs : list (list (nat * nat))) : list (list (nat * nat)) :=
  reverse gs.


Definition reverse_items (buffer_size : nat) (reshuffle : bool)
    (items : list (list (tensor Z))) : list (list (tensor Z)) :=
  reverse items.

(** Five utterances, listed in no particular order. *)
Definition tree5 : list string :=
  ["dump/LJ003-ids.npy"; "dump/LJ003-norm-feats.npy"; "dump/LJ003-durations.npy";
   "dump/LJ001-ids.npy"; "dump/LJ001-norm-feats.npy"; "dump/LJ001-durations.npy";
   "dump/LJ005-ids.npy"; "dump/LJ005-norm-feats.npy"; "dump/LJ005-durations.npy";
   "dump/LJ002-ids.npy"; "dump/LJ002-norm-feats.npy"; "dump/LJ002-durations.npy";
   "dump/LJ004-ids.npy"; "dump/LJ004-norm-feats.npy"; "dump/LJ004-durations.npy"].

Definition mels5 : list (string * (nat * nat)) :=
  [("dump/LJ001-norm-feats.npy", (3, 2)); ("dump/LJ002-norm-feats.npy", (5, 2));
   ("dump/LJ003-norm-feats.npy", (3, 2)); ("dump/LJ004-norm-feats.npy", (2, 2));
   ("dump/LJ005-norm-feats.npy", (5, 2))].

Definition ints5 : list (string * nat) :=
  [("dump/LJ001-ids.npy", 3); ("dump/LJ002-ids.npy", 5); ("dump/LJ003-ids.npy", 2);
   ("dump/LJ004-ids.npy", 4); ("dump/LJ005-ids.npy", 1);
   ("dump/LJ001-durations.npy", 3); ("dump/LJ002-durations.npy", 5);
   ("dump/LJ003-durations.npy", 2); ("dump/LJ004-durations.npy", 4);
   ("dump/LJ005-durations.npy", 1)].

(** Only a charactor file: no mel file, and unequal counts. *)
Definition tree_ids_only : list string := ["dump/LJ001-ids.npy"].

(** Two mel and duration files, one charactor file; only the first mel
    file is longer than a threshold of 5. *)
Definition tree_short : list string :=
  ["dump/LJ001-ids.npy";
   "dump/LJ001-norm-feats.npy"; "dump/LJ002-norm-feats.npy";
   "dump/LJ001-durations.npy"; "dump/LJ002-durations.npy"].

Definition mels_short : list (string * (nat * nat)) :=
  [("dump/LJ001-norm-feats.npy", (10, 2)); ("dump/LJ002-norm-feats.npy", (1, 2))].

(** Charactor files that do not end in [".npy"]. *)
Definition tree_txt : list string :=
  ["dump/LJ001-ids.txt"; "dump/LJ001-norm-feats.npy"; "dump/LJ001-durations.npy"].




(** Charactor files found by a query of their own, without ["-ids.npy"]. *)
Definition tree_chars : list string :=
  ["dump/LJ001-chars.npy"; "dump/LJ001-norm-feats.npy"; "dump/LJ001-durations.npy"].

(** The same file names in two sub-directories. *)
Definition tree_nested : list string :=
  ["dump/a/LJ001-ids.npy"; "dump/a/LJ001-norm-feats.npy"; "dump/a/LJ001-durations.npy";
   "dump/b/LJ001-ids.npy"; "dump/b/LJ001-norm-feats.npy"; "dump/b/LJ001-durations.npy"].

(** Two mel and duration files, three charactor files. *)
Definition tree_surplus : list string :=
  ["dump/LJ001-ids.npy"; "dump/LJ002-ids.npy"; "dump/LJ003-ids.npy";
   "dump/LJ001-norm-feats.npy"; "dump/LJ002-norm-feats.npy";
   "dump/LJ001-durations.npy"; "dump/LJ002-durations.npy"].

Section Dataset.

(** Values held by a float array; [fzero] is the default padding value. *)
Variable F : Type.
Variable fzero : F.

(** External collaborators. *)
Variable find_files : string -> string -> list string.
Variable argsort : list nat -> list nat.                      (* np.argsort *)
Variable shuffle : list (list (nat * nat)) -> list (list (nat * nat)).  (* random.shuffle *)
Variable ds_shuffle : nat -> bool -> list (list (tensor F)) -> list (list (tensor F)).
                                                              (* Dataset.shuffle *)

(** The attributes set by [__init__]. The loaders are total functions of
    the path: an I/O error inside a loader is outside the model. *)
Record CharactorDurationMelDataset := {
  utt_ids : list string;
  mel_files : list string;
  charactor_files : list string;
  duration_files : list string;
  mel_load_fn : string -> ndarray2 F;
  charactor_load_fn : string -> list Z;
  duration_load_fn : string -> list Z;
  return_utt_id : bool
}.

(** The local lists (numpy arrays after line 71) of [__init__] on the
    threshold path: [mel_files], [charactor_files], [duration_files] and
    [mel_lengths]. *)
Record index_lists := {
  il_mel : list string;
  il_charactor : list string;
  il_duration : list string;
  il_lengths : list nat
}.

(** The four lists indexed by the same indices, in the order of lines
    62-65, 71-74 and 90-93. *)
Definition reindex (il : index_lists) (idxs : list nat) : result index_lists :=
  mel ← take_idx (il_mel il) idxs;
  charactor ← take_idx (il_charactor il) idxs;
  duration ← take_idx (il_duration il) idxs;
  lengths ← take_idx (il_lengths il) idxs;
  Ok {| il_mel := mel; il_charactor := charactor;
        il_duration := duration; il_lengths := lengths |}.

(** Lines 56-58: the indices whose mel length exceeds the threshold. *)
Definition kept_idxs (mel_lengths : list nat) (n_mel : nat) (T : Z) : list nat :=
  List.filter
    (fun idx => match mel_lengths !! idx with
                | Some len => (T <? Z.of_nat len)%Z
                | None => false   (* not reached: one length per mel file *)
                end)
    (seq 0 n_mel).

(** Lines 56-65. *)
Definition threshold_filter (mel_load : string -> ndarray2 F) (T : Z)
    (mel charactor duration : list string) : list log_record * result index_lists :=
  let mel_lengths := (fun f => shape0 (mel_load f)) <$> mel in
  let idxs := kept_idxs mel_lengths (length mel) T in
  let log :=
    if Nat.eqb (length mel) (length idxs) then []
    else [Warning_filtered (length mel) (length idxs)] in
  (log,
   reindex {| il_mel := mel; il_charactor := charactor;
              il_duration := duration; il_lengths := mel_lengths |} idxs).

(** Lines 67-93: sort by mel length, group equal lengths, shuffle the
    groups, flatten. *)
Definition bucket_shuffle (il : index_lists) : result index_lists :=
  let idx_sort := argsort (il_lengths il) in
  il ← reindex il idx_sort;
  let idx_lengths := zip (seq 0 (length (il_lengths il))) (il_lengths il) in
  let groups := groupby idx_lengths in
  let groups := shuffle groups in
  let idxs := mjoin (fmap fst <$> groups) in
  reindex il idxs.

(** Lines 95-99. *)
Definition check_counts (root_dir : string) (mel charactor duration : list string)
    : result unit :=
  if Nat.eqb (length mel) 0 then Raise (AssertionError (NoMelFiles root_dir))
  else if Nat.eqb (length mel) (length charactor)
          && Nat.eqb (length charactor) (length duration)
  then Ok tt
  else Raise (AssertionError
                (CountMismatch (length mel) (length charactor) (length duration))).

(** Lines 101-105: [utt_ids] is bound only under the [if]. *)
Definition derive_utt_ids (charactor_query : string) (charactor : list string)
    : result (list string) :=
  if str_in ".npy" charactor_query
  then Ok ((fun f => str_replace "-ids.npy" "" (basename f)) <$> charactor)
  else Raise (UnboundLocalError "utt_ids").

(** Lines 55-93: the three file lists as they reach the assertions. *)
Definition filter_and_bucket (mel_load : string -> ndarray2 F)
    (mel_length_threshold : option Z) (mel charactor duration : list string)
    : list log_record * result (list string * list string * list string) :=
  match mel_length_threshold with
  | Some T =>
      let '(log, filtered) := threshold_filter mel_load T mel charactor duration in
      (log, il ← filtered; il ← bucket_shuffle il;
            Ok (il_mel il, il_charactor il, il_duration il))
  | None => ([], Ok (mel, charactor, duration))
  end.

Definition __init__
    (root_dir charactor_query mel_query duration_query : string)
    (charactor_load : string -> list Z) (mel_load : string -> ndarray2 F)
    (duration_load : string -> list Z)
    (mel_length_threshold : option Z) (return_id : bool)
    : list log_record * result CharactorDurationMelDataset :=
  let charactor := sorted (find_files root_dir charactor_query) in
  let mel := sorted (find_files root_dir mel_query) in
  let duration := sorted (find_files root_dir duration_query) in
  let '(log, lists) :=
    filter_and_bucket mel_load mel_length_threshold mel charactor duration in
  (log,
   '(mel, charactor, duration) ← lists;
   _ ← check_counts root_dir mel charactor duration;
   ids ← derive_utt_ids charactor_query charactor;
   Ok {| utt_ids := ids;
         mel_files := mel;
         charactor_files := charactor;
         duration_files := duration;
         mel_load_fn := mel_load;
         charactor_load_fn := charactor_load;
         duration_load_fn := duration_load;
         return_utt_id := return_id |}).

Definition get_args (self : CharactorDurationMelDataset) : list (list string) :=
  [utt_ids self].

Definition index_or_raise {A} (l : list A) (i : nat) : result A :=
  match l !! i with
  | Some x => Ok x
  | None => Raise IndexError
  end.

(** Lines 117-129. The result is the sequence of tuples yielded by one
    full pass, or the exception that ends the pass. *)
Definition generator (self : CharactorDurationMelDataset) (ids : list string)
    : result (list (list (tensor F))) :=
  mapM (fun '(i, utt_id) =>
          mel_file ← index_or_raise (mel_files self) i;
          charactor_file ← index_or_raise (charactor_files self) i;
          duration_file ← index_or_raise (duration_files self) i;
          let mel := mel_load_fn self mel_file in
          let charactor := charactor_load_fn self charactor_file in
          let duration := duration_load_fn self duration_file in
          Ok (if return_utt_id self
              then [TStr utt_id; TInt charactor; TInt duration; TFloat mel]
              else [TInt charactor; TInt duration; TFloat mel]))
       (imap pair (take 4 ids)).

Definition get_output_dtypes (self : CharactorDurationMelDataset) : list dtype :=
  let output_types := [tf_int32; tf_int32; tf_float32] in
  if return_utt_id self then tf_string :: output_types else output_types.

Definition get_len_dataset (self : CharactorDurationMelDataset) : nat :=
  length (utt_ids self).

(** *** The [tf.data] pipeline of [create] *)

Definition conforms (ty : dtype) (t : tensor F) : bool :=
  match ty, t with
  | tf_string, TStr _ | tf_int32, TInt _ | tf_float32, TFloat _ => true
  | _, _ => false
  end.

Fixpoint conforms_all (tys : list dtype) (item : list (tensor F)) : bool :=
  match tys, item with
  | [], [] => true
  | ty :: tys', t :: item' => conforms ty t && conforms_all tys' item'
  | _, _ => false
  end.

(** [tf.data.Dataset.from_generator(gen, output_types, args)]: the
    generator is called with [*args]; every yielded tuple must match
    [output_types]. *)
Definition from_generator (gen : list string -> result (list (list (tensor F))))
    (output_types : list dtype) (args : list (list string))
    : tf_dataset (list (tensor F)) :=
  {| element_spec := output_types;
     iterate :=
       items ← match args with
               | [a] => gen a
               | _ => Raise TypeError
               end;
       mapM (fun item => if conforms_all output_types item then Ok item
                         else Raise TypeError) items |}.

(** [cache] and [prefetch] do not change the elements. *)
Definition cache {E} (ds : tf_dataset E) : tf_dataset E := ds.
Definition prefetch {E} (ds : tf_dataset E) : tf_dataset E := ds.

Definition shuffle_dataset (buffer_size : nat) (reshuffle_each_iteration : bool)
    (ds : tf_dataset (list (tensor F))) : tf_dataset (list (tensor F)) :=
  {| element_spec := element_spec ds;
     iterate := items ← iterate ds;
                Ok (ds_shuffle buffer_size reshuffle_each_iteration items) |}.

Definition as_str (t : tensor F) : result string :=
  match t with TStr s => Ok s | _ => Raise TypeError end.
Definition as_int (t : tensor F) : result (list Z) :=
  match t with TInt v => Ok v | _ => Raise TypeError end.
Definition as_float (t : tensor F) : result (ndarray2 F) :=
  match t with TFloat m => Ok m | _ => Raise TypeError end.

(** Padding with the default padding value of the dtype. *)
Definition pad1 (n : nat) (v : list Z) : list Z :=
  v ++ replicate (n - length v) 0%Z.

Definition pad2 (t w : nat) (m : ndarray2 F) : ndarray2 F :=
  {| shape1 := w;
     rows := ((fun r => r ++ replicate (w - length r) fzero) <$> rows m)
             ++ replicate (t - shape0 m) (replicate w fzero) |}.

(** A [None] dimension is padded to the largest size of that dimension
    in the batch; a fixed one must be large enough. *)
Definition resolve_dim (d : option nat) (mx : nat) : result nat :=
  match d with
  | None => Ok mx
  | Some n => if Nat.leb mx n then Ok n else Raise ShapeError
  end.

Definition pad_component (ty : dtype) (shape : list (option nat))
    (col : list (tensor F)) : result (batched F) :=
  match ty with
  | tf_string =>
      ss ← mapM as_str col;
      match shape with
      | [] => Ok (BStr ss)
      | _ => Raise ShapeError
      end
  | tf_int32 =>
      vs ← mapM as_int col;
      match shape with
      | [d] => n ← resolve_dim d (max_list (length <$> vs));
               Ok (BInt (pad1 n <$> vs))
      | _ => Raise ShapeError
      end
  | tf_float32 =>
      ms ← mapM as_float col;
      match shape with
      | [d0; d1] => t ← resolve_dim d0 (max_list (shape0 <$> ms));
                    w ← resolve_dim d1 (max_list (shape1 <$> ms));
                    Ok (BFloat (pad2 t w <$> ms))
      | _ => Raise ShapeError
      end
  end.

Definition pad_batch (tys : list dtype) (padded_shapes : list (list (option nat)))
    (chunk : list (list (tensor F))) : result (list (batched F)) :=
  mapM (fun '(j, (ty, shape)) =>
          col ← mapM (fun item => index_or_raise item j) chunk;
          pad_component ty shape col)
       (imap pair (zip tys padded_shapes)).

(** [padded_batch(batch_size, padded_shapes)]: [padded_shapes] must have
    the structure of the elements. *)
Definition padded_batch (batch_size : nat) (padded_shapes : list (list (option nat)))
    (ds : tf_dataset (list (tensor F))) : tf_dataset (list (batched F)) :=
  {| element_spec := element_spec ds;
     iterate :=
       if Nat.eqb (length padded_shapes) (length (element_spec ds)) then
         if Nat.eqb batch_size 0 then Raise InvalidArgument
         else items ← iterate ds;
              mapM (pad_batch (element_spec ds) padded_shapes)
                   (chunks batch_size items)
       else Raise (StructureError (length padded_shapes)
                                  (length (element_spec ds))) |}.

(** Lines 131-155 ([map_fn] is not used by the method). *)
Definition create (self : CharactorDurationMelDataset)
    (allow_cache : bool) (batch_size : nat) (is_shuffle : bool)
    (reshuffle_each_iteration : bool) : tf_dataset (list (batched F)) :=
  let output_types := get_output_dtypes self in
  let datasets := from_generator (generator self) output_types (get_args self) in
  let datasets := if allow_cache then cache datasets else datasets in
  let datasets :=
    if is_shuffle
    then shuffle_dataset (get_len_dataset self) reshuffle_each_iteration datasets
    else datasets in
  let datasets := padded_batch batch_size [[None]; [None]; [None; None]] datasets in
  prefetch datasets.

(** *** Vocabulary of the statements *)

(** A sample: its mel, charactor and duration files and its mel length. *)
Definition sample : Type := string * string * string * nat.

Definition samples (il : index_lists) : list sample :=
  zip (zip (zip (il_mel il) (il_charactor il)) (il_duration il)) (il_lengths il).

Definition aligned (il : index_lists) : Prop :=
  length (il_mel il) = length (il_lengths il)
  /\ length (il_charactor il) = length (il_lengths il)
  /\ length (il_duration il) = length (il_lengths il).

(** The sample that an [[idx, length]] entry of a group stands for. *)
Definition sample_at (S : list sample) (x : nat * nat) : sample :=
  (fst (default ("", "", "", 0) (S !! fst x)), snd x).




(** The mel files that pass the threshold, in their sorted order. *)
Definition exceeds (mel_load : string -> ndarray2 F) (T : Z) (f : string) : bool :=
  (T <? Z.of_nat (shape0 (mel_load f)))%Z.

Definition remaining (mel_load : string -> ndarray2 F) (mel_length_threshold : option Z)
    (mel : list string) : list string :=
  match mel_length_threshold with
  | Some T => List.filter (exceeds mel_load T) mel
  | None => mel
  end.

(** An example without utterance id: charactor, duration and mel arrays. *)
Definition example : Type := list Z * list Z * ndarray2 F.

Definition item_of_example (e : example) : list (tensor F) :=
  [TInt e.1.1; TInt e.1.2; TFloat e.2].

Definition example_of_item (item : list (tensor F)) : example :=
  match item with
  | [TInt c; TInt d; TFloat m] => (c, d, m)
  | _ => ([], [], Ndarray2 0 [])
  end.




(** The batch that [padded_batch] builds from a group of examples. *)
Definition stacked (exs : list example) : list (batched F) :=
  let cs := (fun e : example => e.1.1) <$> exs in
  let ds := (fun e : example => e.1.2) <$> exs in
  let ms := (fun e : example => e.2) <$> exs in
  [BInt (pad1 (max_list (length <$> cs)) <$> cs);
   BInt (pad1 (max_list (length <$> ds)) <$> ds);
   BFloat (pad2 (max_list (shape0 <$> ms)) (max_list (shape1 <$> ms)) <$> ms)].


(** The number of examples stacked in a component of a batch. *)
Definition rows_of (c : batched F) : nat :=
  match c with
  | BStr ss => length ss
  | BInt vs => length vs
  | BFloat ms => length ms
  end.

(** The contract of the external collaborators. *)
Hypothesis argsort_perm : forall l, argsort l ≡ₚ seq 0 (length l).
Hypothesis argsort_sorted :
  forall l out, take_idx l (argsort l) = Ok out -> Sorted le out.
Hypothesis shuffle_perm : forall gs, shuffle gs ≡ₚ gs.
Hypothesis ds_shuffle_perm : forall n b items, ds_shuffle n b items ≡ₚ items.

(** ** Properties *)

(** *** The exception monad *)

Lemma bind_Ok {A B} (m : result A) (k : A -> result B) b :
  m ≫= k = Ok b <-> exists a, m = Ok a /\ k a = Ok b.
Proof.
  destruct m as [a|e]; simpl; split.
  - intros Hk. exists a. auto.
  - intros (a' & [= <-] & Hk). exact Hk.
  - discriminate.
  - intros (a' & [=] & _).
Qed.

Lemma bind_Raise {A B} (m : result A) (k : A -> result B) e :
  m ≫= k = Raise e <-> m = Raise e \/ exists a, m = Ok a /\ k a = Raise e.
Proof.
  destruct m as [a|e']; simpl; split.
  - intros Hk. right. exists a. auto.
  - intros [[=]|(a' & [= <-] & Hk)]. exact Hk.
  - intros [= ->]. now left.
  - intros [[= ->]|(a' & [=] & _)]. reflexivity.
Qed.

Lemma mapM_Ok {A B} (f : A -> result B) l k :
  mapM f l = Ok k <-> Forall2 (fun x y => f x = Ok y) l k.
Proof.
  revert k. induction l as [|x l IH]; intros k; simpl.
  - split.
    + intros [= <-]. constructor.
    + intros Hk. inversion Hk. reflexivity.
  - split.
    + intros Hk. apply bind_Ok in Hk as (y & Hy & Hk).
      apply bind_Ok in Hk as (ys & Hys & [= <-]).
      constructor; [exact Hy | now apply IH].
    + intros Hk. inversion Hk as [|? y ? ys Hy Hys]; subst.
      apply bind_Ok. exists y. split; [exact Hy|].
      apply bind_Ok. exists ys. split; [now apply IH | reflexivity].
Qed.

Lemma mapM_Ok_length {A B} (f : A -> result B) l k :
  mapM f l = Ok k -> length k = length l.
Proof. intros Hk%mapM_Ok. symmetry. eapply Forall2_length, Hk. Qed.

Lemma mapM_total {A B} (f : A -> result B) l :
  Forall (fun x => exists y, f x = Ok y) l -> exists k, mapM f l = Ok k.
Proof.
  induction 1 as [|x l [y Hy] _ [k Hk]].
  - exists []. reflexivity.
  - exists (y :: k). apply mapM_Ok. constructor; [exact Hy | now apply mapM_Ok].
Qed.

(** *** Indexing *)

Lemma take_idx_Ok {A} (arr : list A) idxs out :
  take_idx arr idxs = Ok out <-> Forall2 (fun i x => arr !! i = Some x) idxs out.
Proof.
  unfold take_idx. rewrite mapM_Ok.
  split; intros H; (eapply Forall2_impl; [exact H|]);
    intros i x; simpl; destruct (arr !! i); congruence.
Qed.

Lemma take_idx_length {A} (arr : list A) idxs out :
  take_idx arr idxs = Ok out -> length out = length idxs.
Proof. apply mapM_Ok_length. Qed.

Lemma take_idx_elem_of {A} (arr : list A) idxs out x :
  take_idx arr idxs = Ok out -> x ∈ out -> x ∈ arr.
Proof.
  intros Hout%take_idx_Ok Hx.
  apply list_elem_of_lookup in Hx as [j Hj].
  destruct (Forall2_lookup_r _ _ _ _ _ Hout Hj) as (i & _ & Hi).
  eapply list_elem_of_lookup_2, Hi.
Qed.

Lemma take_idx_Raise {A} (arr : list A) idxs e :
  take_idx arr idxs = Raise e -> e = IndexError /\ exists i, i ∈ idxs /\ length arr <= i.
Proof.
  unfold take_idx. induction idxs as [|i idxs IH]; simpl; [discriminate|].
  intros Hr. apply bind_Raise in Hr as [Hr|(x & Hx & Hr)].
  - destruct (arr !! i) eqn:Hi; [discriminate|]. injection Hr as <-.
    split; [reflexivity|]. exists i. split; [left|]. now apply lookup_ge_None.
  - apply bind_Raise in Hr as [Hr|(xs & _ & [=])].
    destruct (IH Hr) as (-> & j & Hj & Hle).
    split; [reflexivity|]. exists j. split; [now right | exact Hle].
Qed.

Lemma take_idx_out_of_range {A} (arr : list A) idxs i :
  i ∈ idxs -> length arr <= i -> take_idx arr idxs = Raise IndexError.
Proof.
  intros Hi Hle. destruct (take_idx arr idxs) as [out|e] eqn:Hr.
  - apply take_idx_Ok in Hr. apply list_elem_of_lookup in Hi as [j Hj].
    destruct (Forall2_lookup_l _ _ _ _ _ Hr Hj) as (x & _ & Hx).
    apply lookup_lt_Some in Hx. lia.
  - apply take_idx_Raise in Hr as [-> _]. reflexivity.
Qed.

Lemma length_sorted_insert x l : length (sorted_insert x l) = S (length l).
Proof.
  induction l as [|y l IH]; simpl; [reflexivity|].
  destruct (String.leb x y); simpl; congruence.
Qed.

Lemma length_sorted l : length (sorted l) = length l.
Proof.
  induction l as [|x l IH]; simpl; [reflexivity|].
  rewrite length_sorted_insert. congruence.
Qed.

(** *** Construction *)

Lemma reindex_Ok il idxs il' :
  reindex il idxs = Ok il' <->
  take_idx (il_mel il) idxs = Ok (il_mel il')
  /\ take_idx (il_charactor il) idxs = Ok (il_charactor il')
  /\ take_idx (il_duration il) idxs = Ok (il_duration il')
  /\ take_idx (il_lengths il) idxs = Ok (il_lengths il').
Proof.
  unfold reindex. split.
  - intros H.
    apply bind_Ok in H as (m & Hm & H). apply bind_Ok in H as (c & Hc & H).
    apply bind_Ok in H as (d & Hd & H). apply bind_Ok in H as (n & Hn & H).
    injection H as <-. simpl. auto.
  - destruct il' as [m c d n]. simpl. intros (-> & -> & -> & ->). reflexivity.
Qed.

Lemma reindex_lengths il idxs il' :
  reindex il idxs = Ok il' ->
  length (il_mel il') = length idxs
  /\ length (il_charactor il') = length idxs
  /\ length (il_duration il') = length idxs
  /\ length (il_lengths il') = length idxs.
Proof.
  intros (Hm & Hc & Hd & Hn)%reindex_Ok.
  repeat split; eapply take_idx_length; eassumption.
Qed.

Lemma check_counts_Ok root mel charactor duration :
  check_counts root mel charactor duration = Ok tt <->
  length mel <> 0 /\ length mel = length charactor
  /\ length charactor = length duration.
Proof.
  unfold check_counts.
  destruct (Nat.eqb_spec (length mel) 0) as [H0|H0];
    [split; [discriminate | tauto]|].
  destruct (Nat.eqb_spec (length mel) (length charactor)) as [H1|H1];
    destruct (Nat.eqb_spec (length charactor) (length duration)) as [H2|H2];
    simpl; split; (discriminate || tauto || auto).
Qed.

Lemma init_Ok root cq mq dq cl ml dl T rid log self :
  __init__ root cq mq dq cl ml dl T rid = (log, Ok self) ->
  exists mel charactor duration,
    filter_and_bucket ml T (sorted (find_files root mq))
      (sorted (find_files root cq)) (sorted (find_files root dq))
    = (log, Ok (mel, charactor, duration))
    /\ check_counts root mel charactor duration = Ok tt
    /\ str_in ".npy" cq = true
    /\ self = {| utt_ids := (fun f => str_replace "-ids.npy" "" (basename f)) <$> charactor;
                 mel_files := mel;
                 charactor_files := charactor;
                 duration_files := duration;
                 mel_load_fn := ml;
                 charactor_load_fn := cl;
                 duration_load_fn := dl;
                 return_utt_id := rid |}.
Proof.
  unfold __init__.
  destruct (filter_and_bucket _ _ _ _ _) as [log' lists].
  intros [= -> H].
  apply bind_Ok in H as ([[mel charactor] duration] & -> & H).
  apply bind_Ok in H as ([] & Hcheck & H).
  apply bind_Ok in H as (ids & Hids & [= <-]).
  unfold derive_utt_ids in Hids.
  destruct (str_in ".npy" cq); [|discriminate]. injection Hids as <-.
  exists mel, charactor, duration. auto.
Qed.

Lemma filter_and_bucket_None ml mel charactor duration :
  filter_and_bucket ml None mel charactor duration = ([], Ok (mel, charactor, duration)).
Proof. reflexivity. Qed.

Lemma init_lengths root cq mq dq cl ml dl T rid log self :
  __init__ root cq mq dq cl ml dl T rid = (log, Ok self) ->
  length (utt_ids self) = length (charactor_files self)
  /\ length (mel_files self) = length (charactor_files self)
  /\ length (duration_files self) = length (charactor_files self).
Proof.
  intros (mel & charactor & duration & _ & Hcheck & _ & ->)%init_Ok.
  apply check_counts_Ok in Hcheck as (_ & Hmc & Hcd).
  simpl. rewrite length_fmap. auto.
Qed.

(** C6. After a successful construction the sample count is the length of
    the utterance-id list and of each of the three file lists; with no
    threshold it is the number of files found for each family, so a
    directory with N matching triples gives a count of N. *)
Theorem get_len_dataset_counts root cq mq dq cl ml dl T rid log self :
  __init__ root cq mq dq cl ml dl T rid = (log, Ok self) ->
  get_len_dataset self = length (utt_ids self)
  /\ get_len_dataset self = length (charactor_files self)
  /\ get_len_dataset self = length (mel_files self)
  /\ get_len_dataset self = length (duration_files self)
  /\ (T = None ->
      forall N, length (find_files root mq) = N ->
                length (find_files root cq) = N ->
                length (find_files root dq) = N ->
                get_len_dataset self = N).
Proof.
  intros (mel & charactor & duration & Hfb & Hcheck & _ & ->)%init_Ok.
  apply check_counts_Ok in Hcheck as (_ & Hmc & Hcd).
  unfold get_len_dataset. simpl. rewrite length_fmap.
  repeat split; try congruence.
  intros -> N _ HN _. rewrite filter_and_bucket_None in Hfb.
  injection Hfb as _ _ <- _. now rewrite length_sorted.
Qed.

(** *** The generator *)

Lemma generator_lookup self ids items i item :
  generator self ids = Ok items -> items !! i = Some item ->
  exists utt_id mel_file charactor_file duration_file,
    i < 4 /\ ids !! i = Some utt_id
    /\ mel_files self !! i = Some mel_file
    /\ charactor_files self !! i = Some charactor_file
    /\ duration_files self !! i = Some duration_file
    /\ item = if return_utt_id self
              then [TStr utt_id; TInt (charactor_load_fn self charactor_file);
                    TInt (duration_load_fn self duration_file);
                    TFloat (mel_load_fn self mel_file)]
              else [TInt (charactor_load_fn self charactor_file);
                    TInt (duration_load_fn self duration_file);
                    TFloat (mel_load_fn self mel_file)].
Proof.
  unfold generator. intros Hgen%mapM_Ok Hitem.
  destruct (Forall2_lookup_r _ _ _ _ _ Hgen Hitem) as ([j utt_id] & Hj & Hbody).
  rewrite list_lookup_imap in Hj.
  destruct (take 4 ids !! i) as [u|] eqn:Hu; [|discriminate].
  injection Hj as <- <-. apply lookup_take_Some in Hu as [Hu Hlt].
  unfold index_or_raise in Hbody.
  destruct (mel_files self !! i) as [mf|]; [|discriminate].
  destruct (charactor_files self !! i) as [cf|]; [|discriminate].
  destruct (duration_files self !! i) as [df|]; [|discriminate].
  simpl in Hbody. injection Hbody as <-.
  exists u, mf, cf, df. repeat split; assumption || reflexivity.
Qed.

Lemma generator_length self ids items :
  generator self ids = Ok items -> length items = Nat.min 4 (length ids).
Proof.
  unfold generator. intros Hgen%mapM_Ok_length.
  now rewrite Hgen, length_imap, length_take.
Qed.

Lemma generator_total self ids :
  length ids <= length (mel_files self) ->
  length ids <= length (charactor_files self) ->
  length ids <= length (duration_files self) ->
  exists items, generator self ids = Ok items.
Proof.
  intros Hm Hc Hd. unfold generator. apply mapM_total.
  apply Forall_forall. intros [i utt_id] Hin.
  apply list_elem_of_lookup in Hin as [j Hj].
  rewrite list_lookup_imap in Hj.
  destruct (take 4 ids !! j) as [u|] eqn:Hu; [|discriminate].
  injection Hj as <- <-. apply lookup_take_Some in Hu as [Hu%lookup_lt_Some _].
  unfold index_or_raise.
  destruct (lookup_lt_is_Some_2 (mel_files self) j ltac:(lia)) as [mf ->].
  destruct (lookup_lt_is_Some_2 (charactor_files self) j ltac:(lia)) as [cf ->].
  destruct (lookup_lt_is_Some_2 (duration_files self) j ltac:(lia)) as [df ->].
  simpl. eauto.
Qed.

Lemma init_generator_total root cq mq dq cl ml dl T rid log self :
  __init__ root cq mq dq cl ml dl T rid = (log, Ok self) ->
  exists items, generator self (utt_ids self) = Ok items.
Proof.
  intros Hinit.
  destruct (init_lengths _ _ _ _ _ _ _ _ _ _ _ Hinit) as (Hu & Hm & Hd).
  apply generator_total; lia.
Qed.

(** *** Utterance ids *)




Lemma append_cons c s t : String c s +:+ t = String c (s +:+ t).
Proof. reflexivity. Qed.

Lemma replace_from_cons old new c t :
  replace_from old new 0 (String c t) =
  if String.prefix old (String c t)
  then new +:+ replace_from old new (String.length old - 1) t
  else String c (replace_from old new 0 t).
Proof. reflexivity. Qed.



(** *** Grouping *)

Lemma groupby_nonempty {A} (l : list (A * nat)) :
  Forall (fun g => g <> []) (groupby l).
Proof.
  induction l as [|x t IH]; simpl; [constructor|].
  destruct (groupby t) as [|[|y g] gs]; [repeat constructor; discriminate..|].
  destruct (Nat.eqb (snd x) (snd y)).
  - inversion IH; subst. constructor; [discriminate | assumption].
  - constructor; [discriminate | assumption].
Qed.

Lemma groupby_join {A} (l : list (A * nat)) : mjoin (groupby l) = l.
Proof.
  induction l as [|x t IH]; simpl; [reflexivity|].
  pose proof (groupby_nonempty t) as Hne.
  destruct (groupby t) as [|[|y g] gs].
  - simpl in IH. now subst.
  - inversion Hne; congruence.
  - destruct (Nat.eqb (snd x) (snd y)); simpl in *; now rewrite <- IH.
Qed.

Lemma groupby_fmap {A B} (f : A * nat -> B * nat) (l : list (A * nat)) :
  (forall x, snd (f x) = snd x) ->
  groupby (f <$> l) = fmap (M:=list) f <$> groupby l.
Proof.
  intros Hf. induction l as [|x t IH]; [reflexivity|].
  cbn [fmap list_fmap groupby]. fold (f <$> t). rewrite IH.
  destruct (groupby t) as [|[|y g] gs]; try reflexivity.
  cbn [fmap list_fmap]. rewrite !Hf.
  destruct (Nat.eqb (snd x) (snd y)); reflexivity.
Qed.



(** *** Reindexing by a permutation of the positions *)

Lemma take_idx_seq {A} (arr : list A) : take_idx arr (seq 0 (length arr)) = Ok arr.
Proof.
  apply take_idx_Ok, Forall2_same_length_lookup_2.
  - apply length_seq.
  - intros i j x [-> _]%lookup_seq Hx. exact Hx.
Qed.

Lemma take_idx_perm {A} (arr : list A) idxs idxs' out :
  idxs ≡ₚ idxs' -> take_idx arr idxs = Ok out ->
  exists out', take_idx arr idxs' = Ok out' /\ out ≡ₚ out'.
Proof.
  intros Hp Hout%take_idx_Ok.
  destruct (Permutation_Forall2 Hp Hout) as (out' & Hp' & Hout').
  exists out'. split; [now apply take_idx_Ok | exact Hp'].
Qed.

Lemma take_idx_Permutation {A} (arr : list A) idxs :
  idxs ≡ₚ seq 0 (length arr) ->
  exists out, take_idx arr idxs = Ok out /\ out ≡ₚ arr.
Proof.
  intros Hp. symmetry in Hp.
  destruct (take_idx_perm arr _ _ _ Hp (take_idx_seq arr)) as (out & Hout & Hp').
  exists out. split; [exact Hout | now symmetry].
Qed.

Lemma take_idx_zip {A B} (a : list A) (b : list B) idxs a' b' :
  take_idx a idxs = Ok a' -> take_idx b idxs = Ok b' ->
  take_idx (zip a b) idxs = Ok (zip a' b').
Proof.
  rewrite !take_idx_Ok. intros Ha. revert b'.
  induction Ha as [|i x idxs a' Hx Ha IH]; intros b' Hb;
    inversion Hb as [|? y ? b'' Hy Hb']; subst; simpl; constructor.
  - apply lookup_zip_with_Some. eauto.
  - now apply IH.
Qed.

Lemma take_idx_fmap_fst {A B} (arr : list A) (f : nat * B -> A) (xs : list (nat * B)) :
  Forall (fun x => arr !! fst x = Some (f x)) xs ->
  take_idx arr (fst <$> xs) = Ok (f <$> xs).
Proof.
  intros Hxs. apply take_idx_Ok.
  induction Hxs; simpl; constructor; assumption.
Qed.

Lemma take_idx_inj {A} (arr : list A) idxs out out' :
  take_idx arr idxs = Ok out -> take_idx arr idxs = Ok out' -> out = out'.
Proof. congruence. Qed.

Lemma reindex_samples il idxs il' :
  reindex il idxs = Ok il' -> take_idx (samples il) idxs = Ok (samples il').
Proof.
  intros (Hm & Hc & Hd & Hn)%reindex_Ok. unfold samples.
  repeat apply take_idx_zip; assumption.
Qed.

Lemma reindex_aligned il idxs il' : reindex il idxs = Ok il' -> aligned il'.
Proof.
  intros (Hm & Hc & Hd & Hn)%reindex_lengths. unfold aligned.
  rewrite Hm, Hc, Hd, Hn. auto.
Qed.

Lemma samples_length il : aligned il -> length (samples il) = length (il_lengths il).
Proof.
  intros (Hm & Hc & Hd). unfold samples. rewrite !length_zip_with. lia.
Qed.

Lemma samples_snd il : aligned il -> snd <$> samples il = il_lengths il.
Proof.
  intros (Hm & Hc & Hd). unfold samples. apply snd_zip.
  rewrite !length_zip_with. lia.
Qed.

Lemma reindex_total il idxs :
  aligned il -> idxs ≡ₚ seq 0 (length (il_lengths il)) ->
  exists il', reindex il idxs = Ok il' /\ samples il' ≡ₚ samples il.
Proof.
  intros Hal Hp. pose proof Hal as (Hm & Hc & Hd).
  destruct (take_idx_Permutation (il_mel il) idxs) as (m & Hm' & _);
    [now rewrite Hm|].
  destruct (take_idx_Permutation (il_charactor il) idxs) as (c & Hc' & _);
    [now rewrite Hc|].
  destruct (take_idx_Permutation (il_duration il) idxs) as (d & Hd' & _);
    [now rewrite Hd|].
  destruct (take_idx_Permutation (il_lengths il) idxs) as (n & Hn' & _);
    [exact Hp|].
  set (il' := {| il_mel := m; il_charactor := c; il_duration := d; il_lengths := n |}).
  assert (Hre : reindex il idxs = Ok il') by (apply reindex_Ok; auto).
  exists il'. split; [exact Hre|].
  destruct (take_idx_Permutation (samples il) idxs) as (out & Hout & Hperm).
  { now rewrite samples_length. }
  now rewrite (take_idx_inj _ _ _ _ (reindex_samples _ _ _ Hre) Hout).
Qed.

(** *** The length-bucket shuffle *)

Lemma join_fmap {A B} (f : A -> B) (gs : list (list A)) :
  mjoin (fmap (M:=list) f <$> gs) = f <$> mjoin gs.
Proof.
  induction gs as [|g gs IH]; [reflexivity|].
  cbn [fmap list_fmap mjoin list_join]. fold (fmap (M:=list) f <$> gs).
  rewrite fmap_app. f_equal. exact IH.
Qed.

Lemma Sorted_fmap_inv {A B} (f : A -> B) (R : relation B) (l : list A) :
  Sorted R (f <$> l) -> Sorted (fun x y => R (f x) (f y)) l.
Proof.
  induction l as [|x l IH]; [constructor|].
  cbn [fmap list_fmap]. fold (f <$> l). intros Hs.
  inversion Hs as [|? ? Hs' Hhd]; subst. constructor; [now apply IH|].
  destruct l as [|y l]; constructor. now inversion Hhd.
Qed.

Lemma sample_at_lookup (S : list sample) (lens : list nat) x :
  snd <$> S = lens -> x ∈ zip (seq 0 (length lens)) lens ->
  S !! fst x = Some (sample_at S x).
Proof.
  intros Hsnd [p Hp]%list_elem_of_lookup. destruct x as [i len].
  apply lookup_zip_with_Some in Hp as (i' & len' & [= <- <-] & Hi & Hlen).
  apply lookup_seq in Hi as [-> _]. simpl.
  rewrite <- Hsnd, list_lookup_fmap in Hlen.
  unfold sample_at. simpl.
  unfold sample in *.
  destruct (S !! p) as [[a n]|]; simpl in *; congruence.
Qed.

Lemma sample_at_zip (S : list sample) (lens : list nat) :
  snd <$> S = lens -> sample_at S <$> zip (seq 0 (length lens)) lens = S.
Proof.
  intros Hsnd.
  assert (Hlen : length S = length lens) by now rewrite <- Hsnd, length_fmap.
  assert (Hfst : fst <$> zip (seq 0 (length lens)) lens = seq 0 (length S)).
  { rewrite Hlen. apply fst_zip. now rewrite length_seq. }
  eapply take_idx_inj; [|apply take_idx_seq].
  rewrite <- Hfst. apply take_idx_fmap_fst, Forall_forall.
  intros x Hx. eapply sample_at_lookup; eassumption.
Qed.

Lemma bucket_shuffle_spec il :
  aligned il ->
  exists il1 il2 groups,
    reindex il (argsort (il_lengths il)) = Ok il1
    /\ bucket_shuffle il = Ok il2
    /\ samples il1 ≡ₚ samples il
    /\ Sorted (fun x y => snd x <= snd y) (samples il1)
    /\ groups ≡ₚ groupby (samples il1)
    /\ samples il2 = mjoin groups
    /\ aligned il2.
Proof.
  intros Hal.
  destruct (reindex_total il (argsort (il_lengths il)) Hal (argsort_perm _))
    as (il1 & Hre1 & Hp1).
  pose proof (reindex_aligned _ _ _ Hre1) as Hal1.
  pose proof (samples_snd _ Hal1) as Hsnd.
  set (idx_lengths := zip (seq 0 (length (il_lengths il1))) (il_lengths il1)).
  set (groups' := shuffle (groupby idx_lengths)).
  assert (Hjoin : mjoin groups' ≡ₚ idx_lengths).
  { unfold groups'. now rewrite shuffle_perm, groupby_join. }
  assert (Hidxs : mjoin (fmap (M:=list) fst <$> groups')
                  ≡ₚ seq 0 (length (il_lengths il1))).
  { rewrite join_fmap, Hjoin. unfold idx_lengths.
    rewrite fst_zip; [reflexivity | now rewrite length_seq]. }
  destruct (reindex_total il1 _ Hal1 Hidxs) as (il2 & Hre2 & Hp2).
  exists il1, il2, (fmap (M:=list) (sample_at (samples il1)) <$> groups').
  split; [exact Hre1|]. split.
  { unfold bucket_shuffle. rewrite Hre1. exact Hre2. }
  split; [exact Hp1|]. split.
  { apply (Sorted_fmap_inv snd le). rewrite Hsnd.
    apply reindex_Ok in Hre1 as (_ & _ & _ & Hn).
    eapply argsort_sorted, Hn. }
  split.
  { unfold groups'. rewrite shuffle_perm.
    pose proof (groupby_fmap (B:=string * string * string)
                  (sample_at (samples il1)) idx_lengths (fun _ => eq_refl)) as Hg.
    unfold idx_lengths in Hg. rewrite sample_at_zip in Hg by exact Hsnd.
    unfold sample in *. now rewrite Hg. }
  split; [|eapply reindex_aligned, Hre2].
  eapply take_idx_inj; [eapply reindex_samples, Hre2|].
  rewrite !join_fmap. apply take_idx_fmap_fst.
  rewrite Hjoin. apply Forall_forall. intros x Hx.
  eapply sample_at_lookup; eassumption.
Qed.

(** *** Stability *)




(** *** The threshold filter *)

Lemma filter_seq_take_idx {A} (p : A -> bool) (pre l : list A) :
  take_idx (pre ++ l)
    (List.filter (fun i => match (pre ++ l) !! i with
                           | Some x => p x
                           | None => false
                           end)
       (seq (length pre) (length l)))
  = Ok (List.filter p l).
Proof.
  revert pre. induction l as [|x t IH]; intros pre; [reflexivity|].
  cbn [length seq List.filter].
  rewrite (list_lookup_middle pre t x (length pre) eq_refl).
  specialize (IH (pre ++ [x])). rewrite <- app_assoc, length_app in IH.
  simpl in IH. rewrite Nat.add_1_r in IH.
  destruct (p x); [|exact IH].
  apply take_idx_Ok. constructor; [|now apply take_idx_Ok].
  now apply list_lookup_middle.
Qed.

Lemma take_idx_fmap {A B} (f : A -> B) (arr : list A) idxs out :
  take_idx arr idxs = Ok out -> take_idx (f <$> arr) idxs = Ok (f <$> out).
Proof.
  rewrite !take_idx_Ok. intros Hout. apply Forall2_fmap_r.
  eapply Forall2_impl; [exact Hout|]. intros i x Hx.
  simpl. now rewrite list_lookup_fmap, Hx.
Qed.

Lemma kept_idxs_fmap {A} (g : A -> nat) (l : list A) T :
  kept_idxs (g <$> l) (length l) T =
  List.filter (fun i => match l !! i with
                        | Some x => (T <? Z.of_nat (g x))%Z
                        | None => false
                        end) (seq 0 (length l)).
Proof.
  unfold kept_idxs. apply List.filter_ext. intros i.
  rewrite list_lookup_fmap. now destruct (l !! i).
Qed.

Lemma kept_idxs_take (ml : string -> ndarray2 F) T mel :
  take_idx mel (kept_idxs ((fun f => shape0 (ml f)) <$> mel) (length mel) T)
  = Ok (List.filter (exceeds ml T) mel).
Proof. rewrite kept_idxs_fmap. apply (filter_seq_take_idx (exceeds ml T) [] mel). Qed.

Lemma kept_idxs_length (ml : string -> ndarray2 F) T mel :
  length (kept_idxs ((fun f => shape0 (ml f)) <$> mel) (length mel) T)
  = length (List.filter (exceeds ml T) mel).
Proof. symmetry. eapply take_idx_length, kept_idxs_take. Qed.

Lemma threshold_filter_log ml T mel charactor duration :
  fst (threshold_filter ml T mel charactor duration) =
  if Nat.eqb (length mel) (length (List.filter (exceeds ml T) mel)) then []
  else [Warning_filtered (length mel) (length (List.filter (exceeds ml T) mel))].
Proof. unfold threshold_filter. simpl. now rewrite kept_idxs_length. Qed.

Lemma threshold_filter_Ok ml T mel charactor duration il :
  snd (threshold_filter ml T mel charactor duration) = Ok il ->
  il_mel il = List.filter (exceeds ml T) mel
  /\ il_lengths il = (fun f => shape0 (ml f)) <$> il_mel il
  /\ aligned il.
Proof.
  unfold threshold_filter. simpl. intros Hre.
  pose proof (reindex_aligned _ _ _ Hre) as Hal.
  apply reindex_Ok in Hre as (Hm & _ & _ & Hn). simpl in *.
  pose proof (kept_idxs_take ml T mel) as Hk.
  assert (Hmel : il_mel il = List.filter (exceeds ml T) mel) by congruence.
  split; [exact Hmel|]. split; [|exact Hal].
  apply (take_idx_fmap (fun f => shape0 (ml f))) in Hk.
  rewrite Hmel. congruence.
Qed.

Lemma threshold_filter_Raise ml T mel charactor duration e :
  snd (threshold_filter ml T mel charactor duration) = Raise e <->
  e = IndexError
  /\ exists idx,
       idx ∈ kept_idxs ((fun f => shape0 (ml f)) <$> mel) (length mel) T
       /\ (length charactor <= idx \/ length duration <= idx).
Proof.
  unfold threshold_filter, reindex. simpl.
  rewrite kept_idxs_take. simpl.
  rewrite (take_idx_fmap _ _ _ _ (kept_idxs_take ml T mel)).
  set (idxs := kept_idxs _ _ _).
  split.
  - intros Hr. apply bind_Raise in Hr as [Hr|(c & Hc & Hr)].
    { apply take_idx_Raise in Hr as (-> & i & Hi & Hle). eauto 6. }
    apply bind_Raise in Hr as [Hr|(d & Hd & Hr)]; [|discriminate].
    apply take_idx_Raise in Hr as (-> & i & Hi & Hle). eauto 6.
  - intros (-> & i & Hi & Hle).
    destruct (take_idx charactor idxs) as [c|e] eqn:Hc; simpl.
    + destruct Hle as [Hle|Hle].
      * now rewrite (take_idx_out_of_range _ _ _ Hi Hle) in Hc.
      * now rewrite (take_idx_out_of_range _ _ _ Hi Hle).
    + now apply take_idx_Raise in Hc as [-> _].
Qed.

(** *** The two paths of the constructor *)

Lemma init_fst root cq mq dq cl ml dl T rid :
  fst (__init__ root cq mq dq cl ml dl T rid) =
  fst (filter_and_bucket ml T (sorted (find_files root mq))
         (sorted (find_files root cq)) (sorted (find_files root dq))).
Proof. unfold __init__. now destruct (filter_and_bucket _ _ _ _ _). Qed.

Lemma init_snd root cq mq dq cl ml dl T rid :
  snd (__init__ root cq mq dq cl ml dl T rid) =
  ('(mel, charactor, duration) ←
     snd (filter_and_bucket ml T (sorted (find_files root mq))
            (sorted (find_files root cq)) (sorted (find_files root dq)));
   _ ← check_counts root mel charactor duration;
   ids ← derive_utt_ids cq charactor;
   Ok {| utt_ids := ids;
         mel_files := mel;
         charactor_files := charactor;
         duration_files := duration;
         mel_load_fn := ml;
         charactor_load_fn := cl;
         duration_load_fn := dl;
         return_utt_id := rid |}).
Proof. unfold __init__. now destruct (filter_and_bucket _ _ _ _ _). Qed.

Lemma filter_and_bucket_fst ml T mel charactor duration :
  fst (filter_and_bucket ml (Some T) mel charactor duration)
  = fst (threshold_filter ml T mel charactor duration).
Proof. unfold filter_and_bucket. now destruct (threshold_filter _ _ _ _ _). Qed.

Lemma filter_and_bucket_snd ml T mel charactor duration :
  snd (filter_and_bucket ml (Some T) mel charactor duration)
  = (il ← snd (threshold_filter ml T mel charactor duration);
     il ← bucket_shuffle il;
     Ok (il_mel il, il_charactor il, il_duration il)).
Proof. unfold filter_and_bucket. now destruct (threshold_filter _ _ _ _ _). Qed.

Lemma bucket_shuffle_Ok il il2 :
  bucket_shuffle il = Ok il2 ->
  exists il1 idxs,
    reindex il (argsort (il_lengths il)) = Ok il1 /\ reindex il1 idxs = Ok il2.
Proof.
  unfold bucket_shuffle. intros (il1 & H1 & H2)%bind_Ok. eauto.
Qed.

(** On the threshold path the three lists reach the assertions with one
    common length, whatever the collaborators return. *)
Lemma filter_and_bucket_Some_Ok ml T mel charactor duration m c d :
  snd (filter_and_bucket ml (Some T) mel charactor duration) = Ok (m, c, d) ->
  length c = length m /\ length d = length m
  /\ Forall (fun f => exceeds ml T f = true) m.
Proof.
  rewrite filter_and_bucket_snd. intros (il & Hil & H)%bind_Ok.
  apply bind_Ok in H as (il2 & Hil2 & [= <- <- <-]).
  apply bucket_shuffle_Ok in Hil2 as (il1 & idxs & H1 & H2).
  destruct (reindex_lengths _ _ _ H2) as (Hm & Hc & Hd & _).
  split; [congruence|]. split; [congruence|].
  apply threshold_filter_Ok in Hil as (Hmel & _ & _).
  apply reindex_Ok in H1 as (H1 & _). apply reindex_Ok in H2 as (H2 & _).
  apply Forall_forall. intros f Hf.
  eapply take_idx_elem_of in Hf; [|exact H2].
  eapply take_idx_elem_of in Hf; [|exact H1].
  rewrite Hmel in Hf. apply list_elem_of_In, List.filter_In in Hf. tauto.
Qed.

Lemma samples_mel il :
  aligned il -> (fun s : sample => s.1.1.1) <$> samples il = il_mel il.
Proof.
  intros (Hm & Hc & Hd). unfold samples, sample.
  transitivity
    (fst <$> (fst <$> (fst <$> zip (zip (zip (il_mel il) (il_charactor il))
                                      (il_duration il)) (il_lengths il)))).
  { now rewrite <- !list_fmap_compose. }
  rewrite !fst_zip; rewrite ?length_zip_with; (reflexivity || lia).
Qed.

(** With collaborators that honour their contract, the threshold path
    either stops at the filter with [IndexError] or delivers a permutation
    of the files that pass the threshold. *)
Lemma filter_and_bucket_Some_cases ml T mel charactor duration :
  (snd (filter_and_bucket ml (Some T) mel charactor duration) = Raise IndexError
   /\ exists idx,
        idx ∈ kept_idxs ((fun f => shape0 (ml f)) <$> mel) (length mel) T
        /\ (length charactor <= idx \/ length duration <= idx))
  \/ (exists m c d,
        snd (filter_and_bucket ml (Some T) mel charactor duration) = Ok (m, c, d)
        /\ m ≡ₚ List.filter (exceeds ml T) mel
        /\ length c = length m /\ length d = length m).
Proof.
  rewrite filter_and_bucket_snd.
  destruct (snd (threshold_filter ml T mel charactor duration)) as [il|e] eqn:Hf.
  - right. destruct (threshold_filter_Ok _ _ _ _ _ _ Hf) as (Hmel & _ & Hal).
    destruct (bucket_shuffle_spec il Hal)
      as (il1 & il2 & groups & _ & Hbs & Hp1 & _ & Hg & Hjoin & Hal2).
    exists (il_mel il2), (il_charactor il2), (il_duration il2).
    simpl. rewrite Hbs. simpl. split; [reflexivity|].
    destruct Hal2 as (Hm2 & Hc2 & Hd2). split; [|split; congruence].
    rewrite <- Hmel, <- (samples_mel il Hal), <- (samples_mel il2); [|split; auto].
    apply fmap_Permutation. rewrite Hjoin, Hg, groupby_join. exact Hp1.
  - left. apply threshold_filter_Raise in Hf as (-> & Hidx). split; [reflexivity | exact Hidx].
Qed.

Lemma init_snd_Ok root cq mq dq cl ml dl T rid m c d :
  snd (filter_and_bucket ml T (sorted (find_files root mq))
         (sorted (find_files root cq)) (sorted (find_files root dq))) = Ok (m, c, d) ->
  snd (__init__ root cq mq dq cl ml dl T rid) =
  if Nat.eqb (length m) 0 then Raise (AssertionError (NoMelFiles root))
  else if Nat.eqb (length m) (length c) && Nat.eqb (length c) (length d)
  then if str_in ".npy" cq
       then Ok {| utt_ids := (fun f => str_replace "-ids.npy" "" (basename f)) <$> c;
                  mel_files := m;
                  charactor_files := c;
                  duration_files := d;
                  mel_load_fn := ml;
                  charactor_load_fn := cl;
                  duration_load_fn := dl;
                  return_utt_id := rid |}
       else Raise (UnboundLocalError "utt_ids")
  else Raise (AssertionError (CountMismatch (length m) (length c) (length d))).
Proof.
  intros Hl. rewrite init_snd, Hl. simpl. unfold check_counts, derive_utt_ids.
  destruct (Nat.eqb (length m) 0); [reflexivity|].
  destruct (Nat.eqb (length m) (length c) && Nat.eqb (length c) (length d));
    [|reflexivity].
  simpl. now destruct (str_in ".npy" cq).
Qed.

Lemma init_snd_Raise root cq mq dq cl ml dl T rid e :
  snd (filter_and_bucket ml T (sorted (find_files root mq))
         (sorted (find_files root cq)) (sorted (find_files root dq))) = Raise e ->
  snd (__init__ root cq mq dq cl ml dl T rid) = Raise e.
Proof. intros Hl. now rewrite init_snd, Hl. Qed.

Lemma length_zero_nil {A} (l : list A) : length l = 0 <-> l = [].
Proof. destruct l; simpl; split; (reflexivity || discriminate). Qed.

Lemma kept_idxs_nonempty ml T mel idx :
  idx ∈ kept_idxs ((fun f => shape0 (ml f)) <$> mel) (length mel) T ->
  List.filter (exceeds ml T) mel <> [].
Proof.
  intros Hidx Hnil. apply length_zero_nil in Hnil.
  rewrite <- kept_idxs_length in Hnil. apply length_zero_nil in Hnil.
  rewrite Hnil in Hidx. inversion Hidx.
Qed.


(** C3. With a threshold [T], every mel file of a constructed index has
    more than [T] frames, and the log holds the warning with the number of
    mel files found and the number kept exactly when some file was
    dropped. *)
Theorem threshold_retained_and_warned root cq mq dq cl ml dl T rid log r :
  __init__ root cq mq dq cl ml dl (Some T) rid = (log, r) ->
  let mel := sorted (find_files root mq) in
  let kept := List.filter (exceeds ml T) mel in
  (forall self, r = Ok self ->
     Forall (fun f => (T < Z.of_nat (shape0 (ml f)))%Z) (mel_files self))
  /\ (length kept < length mel -> log = [Warning_filtered (length mel) (length kept)])
  /\ (length kept = length mel -> log = []).
Proof.
  intros Hinit mel kept.
  pose proof (init_fst root cq mq dq cl ml dl (Some T) rid) as Hlog.
  rewrite Hinit, filter_and_bucket_fst, threshold_filter_log in Hlog.
  simpl in Hlog. fold mel kept in Hlog. split; [|split].
  - intros self ->.
    apply init_Ok in Hinit as (m & c & d & Hfb & _ & _ & ->). simpl.
    apply (f_equal snd) in Hfb. simpl in Hfb.
    apply filter_and_bucket_Some_Ok in Hfb as (_ & _ & Hex).
    eapply Forall_impl; [exact Hex|]. intros f Hf.
    unfold exceeds in Hf. now apply Z.ltb_lt.
  - intros Hlt. rewrite Hlog.
    destruct (Nat.eqb_spec (length mel) (length kept)); [lia | reflexivity].
  - intros Heq. rewrite Hlog, Heq. now rewrite Nat.eqb_refl.
Qed.

(** C4 (as amended). Construction fails with the no-data assertion
    exactly when no mel file remains (none found, or none above the
    threshold). With no threshold it fails with the count-mismatch
    assertion, which names the three counts, exactly when some mel file
    was found and the three counts are not all equal. The failure is the
    result of the constructor itself. *)
Theorem construction_assertions root cq mq dq cl ml dl T rid :
  let mel := sorted (find_files root mq) in
  let charactor := sorted (find_files root cq) in
  let duration := sorted (find_files root dq) in
  let r := snd (__init__ root cq mq dq cl ml dl T rid) in
  (r = Raise (AssertionError (NoMelFiles root)) <-> remaining ml T mel = [])
  /\ (T = None ->
      forall m c d,
        r = Raise (AssertionError (CountMismatch m c d)) <->
        m = length mel /\ c = length charactor /\ d = length duration
        /\ m <> 0 /\ ~ (m = c /\ c = d)).
Proof.
  intros mel charactor duration r. split.
  - destruct T as [T|]; simpl.
    + destruct (filter_and_bucket_Some_cases ml T mel charactor duration)
        as [(Hr & idx & Hidx & _)|(m & c & d & Hr & Hp & Hc & Hd)].
      * unfold r. rewrite (init_snd_Raise _ _ _ _ _ _ _ _ _ _ Hr).
        split; [discriminate|]. intros Hnil.
        now apply kept_idxs_nonempty in Hidx.
      * unfold r. rewrite (init_snd_Ok _ _ _ _ _ _ _ _ _ _ _ _ Hr).
        rewrite Hc, Hd, !Nat.eqb_refl. simpl.
        destruct (Nat.eqb_spec (length m) 0) as [H0|H0].
        -- split; [|reflexivity]. intros _. apply length_zero_nil in H0.
           subst m. now apply Permutation_nil_l in Hp.
        -- split.
           ++ destruct (str_in ".npy" cq); discriminate.
           ++ intros Hnil. rewrite Hnil in Hp.
              apply Permutation_nil_r in Hp. now subst m.
    + unfold r. rewrite (init_snd_Ok root cq mq dq cl ml dl None rid mel charactor duration eq_refl).
      destruct (Nat.eqb_spec (length mel) 0) as [H0|H0].
      * split; [|reflexivity]. intros _. now apply length_zero_nil.
      * split.
        -- destruct (_ && _); [destruct (str_in ".npy" cq)|]; discriminate.
        -- intros Hnil. now apply length_zero_nil in Hnil.
  - intros -> m c d. unfold r.
    rewrite (init_snd_Ok root cq mq dq cl ml dl None rid mel charactor duration eq_refl).
    destruct (Nat.eqb_spec (length mel) 0) as [H0|H0].
    { split; [discriminate|]. intros (-> & _ & _ & Hne & _). contradiction. }
    destruct (Nat.eqb_spec (length mel) (length charactor)) as [H1|H1];
      destruct (Nat.eqb_spec (length charactor) (length duration)) as [H2|H2];
      simpl.
    + split.
      * destruct (str_in ".npy" cq); discriminate.
      * intros (-> & -> & -> & _ & Hne). tauto.
    + split; [intros [= <- <- <-]|intros (-> & -> & -> & _)]; tauto.
    + split; [intros [= <- <- <-]|intros (-> & -> & -> & _)]; tauto.
    + split; [intros [= <- <- <-]|intros (-> & -> & -> & _)]; tauto.
Qed.

(** C8. When the charactor query does not contain [".npy"], construction
    never succeeds; and when the three families have the same non-zero
    number of files (and, with a threshold, some mel file remains) it
    fails with the unbound-variable error on [utt_ids]. *)
Theorem missing_npy_unbound root cq mq dq cl ml dl T rid :
  str_in ".npy" cq = false ->
  (forall self, snd (__init__ root cq mq dq cl ml dl T rid) <> Ok self)
  /\ (length (find_files root cq) = length (find_files root mq) ->
      length (find_files root dq) = length (find_files root mq) ->
      remaining ml T (sorted (find_files root mq)) <> [] ->
      snd (__init__ root cq mq dq cl ml dl T rid)
      = Raise (UnboundLocalError "utt_ids")).
Proof.
  intros Hq. split.
  - intros self Hself.
    destruct (__init__ root cq mq dq cl ml dl T rid) as [log r] eqn:Hinit.
    simpl in Hself. subst r.
    apply init_Ok in Hinit as (_ & _ & _ & _ & _ & Hin & _). congruence.
  - intros Hc Hd Hrem.
    rewrite <- !(length_sorted (find_files root mq)) in Hc, Hd.
    rewrite <- (length_sorted (find_files root cq)) in Hc.
    rewrite <- (length_sorted (find_files root dq)) in Hd.
    destruct T as [T|]; simpl in Hrem.
    + destruct (filter_and_bucket_Some_cases ml T (sorted (find_files root mq))
                  (sorted (find_files root cq)) (sorted (find_files root dq)))
        as [(_ & idx & Hidx & Hout)|(m & c & d & Hr & Hp & Hmc & Hmd)].
      * exfalso. unfold kept_idxs in Hidx.
        apply list_elem_of_In, List.filter_In in Hidx as [Hidx _].
        apply List.in_seq in Hidx. lia.
      * rewrite (init_snd_Ok _ _ _ _ _ _ _ _ _ _ _ _ Hr).
        rewrite Hmc, Hmd, !Nat.eqb_refl, Hq. simpl.
        destruct (Nat.eqb_spec (length m) 0) as [H0|H0]; [|reflexivity].
        apply length_zero_nil in H0. subst m.
        apply Permutation_nil_l in Hp. congruence.
    + rewrite (init_snd_Ok root cq mq dq cl ml dl None rid _ _ _ eq_refl).
      rewrite Hc, Hd, !Nat.eqb_refl, Hq. simpl.
      destruct (Nat.eqb_spec (length (sorted (find_files root mq))) 0) as [H0|H0];
        [|reflexivity].
      now apply length_zero_nil in H0.
Qed.

(** C9 (as amended). With a threshold, construction never fails with the
    count-mismatch assertion. It fails with [IndexError] in the filtering
    step exactly when the index of some retained mel file lies beyond the
    end of the charactor or the duration list; otherwise shorter (or
    longer) lists go unnoticed, all three lists being cut to the retained
    indices. *)
Theorem threshold_hides_count_mismatch root cq mq dq cl ml dl T rid :
  let mel := sorted (find_files root mq) in
  let charactor := sorted (find_files root cq) in
  let duration := sorted (find_files root dq) in
  let r := snd (__init__ root cq mq dq cl ml dl (Some T) rid) in
  (forall m c d, r <> Raise (AssertionError (CountMismatch m c d)))
  /\ (r = Raise IndexError <->
      exists idx,
        idx ∈ kept_idxs ((fun f => shape0 (ml f)) <$> mel) (length mel) T
        /\ (length charactor <= idx \/ length duration <= idx)).
Proof.
  intros mel charactor duration r.
  destruct (filter_and_bucket_Some_cases ml T mel charactor duration)
    as [(Hr & Hidx)|(m & c & d & Hr & Hp & Hc & Hd)]; unfold r.
  - rewrite (init_snd_Raise _ _ _ _ _ _ _ _ _ _ Hr).
    split; [discriminate|]. split; [intros _; exact Hidx | reflexivity].
  - rewrite (init_snd_Ok _ _ _ _ _ _ _ _ _ _ _ _ Hr).
    rewrite Hc, Hd, !Nat.eqb_refl. simpl.
    assert (Hno : ~ exists idx,
               idx ∈ kept_idxs ((fun f => shape0 (ml f)) <$> mel) (length mel) T
               /\ (length charactor <= idx \/ length duration <= idx)).
    { intros Hidx.
      assert (Hraise : snd (threshold_filter ml T mel charactor duration)
                       = Raise IndexError)
        by (apply threshold_filter_Raise; auto).
      rewrite filter_and_bucket_snd, Hraise in Hr. discriminate. }
    destruct (Nat.eqb (length m) 0); [|destruct (str_in ".npy" cq)];
      (split; [discriminate|]); (split; [discriminate | intros H; now apply Hno in H]).
Qed.

(** *** Batching *)



Lemma chunks_fuel_Forall {A} (P : A -> Prop) (n fuel : nat) (l : list A) :
  Forall P l -> Forall (Forall P) (chunks_fuel fuel n l).
Proof.
  revert l. induction fuel as [|fuel IH]; intros [|x t] Hl; try constructor.
  - now apply Forall_take.
  - now apply IH, Forall_drop.
Qed.


(** *** Padding *)





Lemma mapM_fmap_Ok {A B C} (f : B -> result C) (g : A -> B) (h : A -> C) l :
  (forall x, f (g x) = Ok (h x)) -> mapM f (g <$> l) = Ok (h <$> l).
Proof.
  intros Hf. apply mapM_Ok, Forall2_fmap. apply Forall_Forall2_diag.
  apply Forall_forall. auto.
Qed.

Lemma pad_batch_examples (exs : list example) :
  pad_batch [tf_int32; tf_int32; tf_float32] [[None]; [None]; [None; None]]
    (item_of_example <$> exs)
  = Ok (stacked exs).
Proof.
  unfold stacked, pad_batch. cbn [imap zip_with mapM]. unfold compose.
  cbn beta iota zeta.
  rewrite (mapM_fmap_Ok (fun item => index_or_raise item 0) item_of_example
             (fun e => TInt e.1.1)) by reflexivity.
  rewrite (mapM_fmap_Ok (fun item => index_or_raise item 1) item_of_example
             (fun e => TInt e.1.2)) by reflexivity.
  rewrite (mapM_fmap_Ok (fun item => index_or_raise item 2) item_of_example
             (fun e => TFloat e.2)) by reflexivity.
  cbn [mbind result_bind pad_component].
  rewrite (mapM_fmap_Ok as_int (fun e : example => TInt e.1.1)
             (fun e : example => e.1.1)) by reflexivity.
  rewrite (mapM_fmap_Ok as_int (fun e : example => TInt e.1.2)
             (fun e : example => e.1.2)) by reflexivity.
  rewrite (mapM_fmap_Ok as_float (fun e : example => TFloat e.2)
             (fun e : example => e.2)) by reflexivity.
  reflexivity.
Qed.

(** *** The pipeline of [create] *)


Lemma conforms_item_of_example item :
  conforms_all [tf_int32; tf_int32; tf_float32] item = true ->
  item = item_of_example (example_of_item item).
Proof.
  destruct item as [|[?|c|?] [|[?|d|?] [|[?|?|m] [|? ?]]]]; simpl;
    (discriminate || reflexivity).
Qed.

Lemma generator_conforms self ids items :
  return_utt_id self = false -> generator self ids = Ok items ->
  Forall (fun item => conforms_all [tf_int32; tf_int32; tf_float32] item = true) items.
Proof.
  intros Hrid Hgen. apply Forall_lookup. intros i item Hitem.
  destruct (generator_lookup _ _ _ _ _ Hgen Hitem)
    as (u & mf & cf & df & _ & _ & _ & _ & _ & ->).
  now rewrite Hrid.
Qed.

Lemma mapM_check_Ok {A} (p : A -> bool) e (l : list A) :
  Forall (fun x => p x = true) l ->
  mapM (fun x => if p x then Ok x else Raise e) l = Ok l.
Proof.
  intros Hl. apply mapM_Ok, Forall_Forall2_diag.
  eapply Forall_impl; [exact Hl|]. intros x Hx. simpl in Hx. now rewrite Hx.
Qed.

Lemma create_without_utt_id self ac bs sh re :
  return_utt_id self = false ->
  iterate (create self ac bs sh re) =
  if Nat.eqb bs 0 then Raise InvalidArgument
  else items ← generator self (utt_ids self);
       mapM (pad_batch [tf_int32; tf_int32; tf_float32] [[None]; [None]; [None; None]])
            (chunks bs (if sh then ds_shuffle (get_len_dataset self) re items
                        else items)).
Proof.
  intros Hrid. unfold create, prefetch, padded_batch, get_output_dtypes.
  rewrite Hrid.
  assert (Hit : iterate (from_generator (generator self)
                           [tf_int32; tf_int32; tf_float32] (get_args self))
                = generator self (utt_ids self)).
  { unfold from_generator, get_args. simpl.
    destruct (generator self (utt_ids self)) as [items|e] eqn:Hgen; [|reflexivity].
    simpl. apply mapM_check_Ok. eapply generator_conforms; eassumption. }
  destruct ac, sh; unfold cache, shuffle_dataset; cbn [iterate element_spec length Nat.eqb];
    destruct (Nat.eqb bs 0); try reflexivity; rewrite ?Hit;
    now destruct (generator self (utt_ids self)).
Qed.



Lemma create_batches self ac bs sh re items0 :
  return_utt_id self = false -> bs <> 0 ->
  generator self (utt_ids self) = Ok items0 ->
  iterate (create self ac bs sh re) =
  Ok ((fun chunk => stacked (example_of_item <$> chunk))
        <$> chunks bs (if sh then ds_shuffle (get_len_dataset self) re items0
                       else items0)).
Proof.
  intros Hrid Hbs Hgen. rewrite (create_without_utt_id _ _ _ _ _ Hrid), Hgen.
  destruct (Nat.eqb_spec bs 0) as [|_]; [contradiction|]. simpl.
  set (items := if sh then _ else _).
  assert (Hconf : Forall (fun item =>
            conforms_all [tf_int32; tf_int32; tf_float32] item = true) items).
  { unfold items. destruct sh; [rewrite ds_shuffle_perm|];
      eapply generator_conforms; eassumption. }
  apply mapM_Ok, Forall2_fmap_r, Forall_Forall2_diag.
  eapply Forall_impl; [apply (chunks_fuel_Forall _ bs _ _ Hconf)|].
  intros chunk Hchunk. simpl.
  rewrite <- pad_batch_examples. f_equal.
  rewrite <- list_fmap_compose. rewrite <- (list_fmap_id chunk) at 1.
  apply Forall_fmap_ext_1. eapply Forall_impl; [exact Hchunk|].
  intros item Hitem. now apply conforms_item_of_example.
Qed.



(** The pass of the generator over a constructed index stops after
    four examples. *)
Lemma generator_takes_four root cq mq dq cl ml dl T rid log self :
  __init__ root cq mq dq cl ml dl T rid = (log, Ok self) ->
  exists items,
    generator self (utt_ids self) = Ok items
    /\ length items = Nat.min 4 (get_len_dataset self).
Proof.
  intros Hinit. destruct (init_generator_total _ _ _ _ _ _ _ _ _ _ _ Hinit) as [items Hgen].
  exists items. split; [exact Hgen|]. exact (generator_length _ _ _ Hgen).
Qed.

(** ** Further properties of the class *)

(** *** Positional alignment of the three file lists *)

Lemma reindex_lookup il idxs il' i mf cf df :
  reindex il idxs = Ok il' ->
  il_mel il' !! i = Some mf -> il_charactor il' !! i = Some cf ->
  il_duration il' !! i = Some df ->
  exists j,
    il_mel il !! j = Some mf /\ il_charactor il !! j = Some cf
    /\ il_duration il !! j = Some df.
Proof.
  intros (Hm & Hc & Hd & _)%reindex_Ok Hmf Hcf Hdf.
  apply take_idx_Ok in Hm, Hc, Hd.
  destruct (Forall2_lookup_r _ _ _ _ _ Hm Hmf) as (j & Hj & Hjm).
  destruct (Forall2_lookup_r _ _ _ _ _ Hc Hcf) as (j1 & Hj1 & Hjc).
  destruct (Forall2_lookup_r _ _ _ _ _ Hd Hdf) as (j2 & Hj2 & Hjd).
  exists j. split; [exact Hjm|]. split; congruence.
Qed.

(** X1. Whatever the index sort and the group shuffle return, the files at
    one position of a constructed index come from one common position of
    the three sorted file lists (the same position when no threshold is
    given), and the utterance id at that position is derived from that
    charactor file. *)
Theorem init_keeps_triples root cq mq dq cl ml dl T rid log self i mf cf df :
  __init__ root cq mq dq cl ml dl T rid = (log, Ok self) ->
  mel_files self !! i = Some mf ->
  charactor_files self !! i = Some cf ->
  duration_files self !! i = Some df ->
  utt_ids self !! i = Some (str_replace "-ids.npy" "" (basename cf))
  /\ exists j,
       sorted (find_files root mq) !! j = Some mf
       /\ sorted (find_files root cq) !! j = Some cf
       /\ sorted (find_files root dq) !! j = Some df
       /\ (T = None -> j = i).
Proof.
  intros (m & c & d & Hfb & _ & _ & ->)%init_Ok. simpl. intros Hmf Hcf Hdf.
  split; [now rewrite list_lookup_fmap, Hcf|].
  apply (f_equal snd) in Hfb. simpl in Hfb.
  destruct T as [T|].
  - rewrite filter_and_bucket_snd in Hfb.
    apply bind_Ok in Hfb as (il & Hil & Hfb).
    apply bind_Ok in Hfb as (il2 & Hil2 & [= <- <- <-]).
    apply bucket_shuffle_Ok in Hil2 as (il1 & idxs & H1 & H2).
    destruct (reindex_lookup _ _ _ _ _ _ _ H2 Hmf Hcf Hdf) as (j2 & Hm2 & Hc2 & Hd2).
    destruct (reindex_lookup _ _ _ _ _ _ _ H1 Hm2 Hc2 Hd2) as (j1 & Hm1 & Hc1 & Hd1).
    unfold threshold_filter in Hil. simpl in Hil.
    destruct (reindex_lookup _ _ _ _ _ _ _ Hil Hm1 Hc1 Hd1) as (j & Hm0 & Hc0 & Hd0).
    exists j. simpl in *. repeat split; try assumption. discriminate.
  - rewrite filter_and_bucket_None in Hfb. injection Hfb as <- <- <-.
    exists i. repeat split; assumption.
Qed.

(** *** File order without a threshold *)

Lemma sorted_insert_Permutation x l : sorted_insert x l ≡ₚ x :: l.
Proof.
  induction l as [|y l IH]; simpl; [reflexivity|].
  destruct (String.leb x y); [reflexivity|].
  rewrite IH. apply Permutation_swap.
Qed.

Lemma sorted_Permutation l : sorted l ≡ₚ l.
Proof.
  induction l as [|x l IH]; simpl; [reflexivity|].
  now rewrite sorted_insert_Permutation, IH.
Qed.

Lemma sorted_insert_Sorted x l :
  Sorted (fun a b => String.leb a b = true) l ->
  Sorted (fun a b => String.leb a b = true) (sorted_insert x l).
Proof.
  induction 1 as [|y l Hl IH Hhd]; simpl; [repeat constructor|].
  destruct (String.leb x y) eqn:Hxy.
  - constructor; [now constructor|]. now constructor.
  - constructor; [exact IH|].
    assert (Hyx : String.leb y x = true).
    { destruct (String.leb_total x y); congruence. }
    destruct l as [|z l]; simpl.
    + now constructor.
    + inversion Hhd; subst. destruct (String.leb x z); now constructor.
Qed.

Lemma sorted_Sorted l : Sorted (fun a b => String.leb a b = true) (sorted l).
Proof.
  induction l as [|x l IH]; simpl; [constructor|]. now apply sorted_insert_Sorted.
Qed.

(** X2. Without a threshold nothing is logged, and each file list of the
    constructed index is the files found for its query, rearranged into
    ascending lexicographic order of the paths. *)
Theorem no_threshold_keeps_sorted_order root cq mq dq cl ml dl rid log self :
  __init__ root cq mq dq cl ml dl None rid = (log, Ok self) ->
  log = []
  /\ (mel_files self ≡ₚ find_files root mq
      /\ Sorted (fun a b => String.leb a b = true) (mel_files self))
  /\ (charactor_files self ≡ₚ find_files root cq
      /\ Sorted (fun a b => String.leb a b = true) (charactor_files self))
  /\ (duration_files self ≡ₚ find_files root dq
      /\ Sorted (fun a b => String.leb a b = true) (duration_files self)).
Proof.
  intros (m & c & d & Hfb & _ & _ & ->)%init_Ok.
  rewrite filter_and_bucket_None in Hfb. injection Hfb as <- <- <- <-. simpl.
  split; [reflexivity|].
  repeat split; (apply sorted_Permutation || apply sorted_Sorted).
Qed.

(** *** The generator on an arbitrary id list *)

Lemma mapM_Raise {A B} (f : A -> result B) l e :
  mapM f l = Raise e -> exists x, x ∈ l /\ f x = Raise e.
Proof.
  induction l as [|x l IH]; simpl; [discriminate|].
  intros Hr. apply bind_Raise in Hr as [Hr|(y & Hy & Hr)].
  - exists x. split; [left | exact Hr].
  - apply bind_Raise in Hr as [Hr|(ys & _ & [=])].
    destruct (IH Hr) as (x' & Hx' & Hfx'). exists x'. split; [now right | exact Hfx'].
Qed.

Lemma generator_Raise self ids e : generator self ids = Raise e -> e = IndexError.
Proof.
  unfold generator. intros ([i u] & _ & Hbody)%mapM_Raise.
  unfold index_or_raise in Hbody.
  destruct (mel_files self !! i); [|now injection Hbody].
  destruct (charactor_files self !! i); [|now injection Hbody].
  destruct (duration_files self !! i); [discriminate | now injection Hbody].
Qed.

Lemma generator_Ok_bounds self ids items :
  generator self ids = Ok items ->
  Nat.min 4 (length ids) <= length (mel_files self)
  /\ Nat.min 4 (length ids) <= length (charactor_files self)
  /\ Nat.min 4 (length ids) <= length (duration_files self).
Proof.
  intros Hgen. pose proof (generator_length _ _ _ Hgen) as Hlen.
  destruct (Nat.min 4 (length ids)) as [|n] eqn:Hn; [lia|].
  destruct (lookup_lt_is_Some_2 items n ltac:(lia)) as [item Hitem].
  destruct (generator_lookup _ _ _ _ _ Hgen Hitem)
    as (u & mf & cf & df & _ & _ & Hm%lookup_lt_Some & Hc%lookup_lt_Some
        & Hd%lookup_lt_Some & _).
  lia.
Qed.

Lemma generator_total_min self ids :
  Nat.min 4 (length ids) <= length (mel_files self) ->
  Nat.min 4 (length ids) <= length (charactor_files self) ->
  Nat.min 4 (length ids) <= length (duration_files self) ->
  exists items, generator self ids = Ok items.
Proof.
  intros Hm Hc Hd. unfold generator. apply mapM_total.
  apply Forall_forall. intros [i utt_id] Hin.
  apply list_elem_of_lookup in Hin as [j Hj].
  rewrite list_lookup_imap in Hj.
  destruct (take 4 ids !! j) as [u|] eqn:Hu; [|discriminate].
  injection Hj as <- <-. apply lookup_lt_Some in Hu. rewrite length_take in Hu.
  unfold index_or_raise.
  destruct (lookup_lt_is_Some_2 (mel_files self) j ltac:(lia)) as [mf ->].
  destruct (lookup_lt_is_Some_2 (charactor_files self) j ltac:(lia)) as [cf ->].
  destruct (lookup_lt_is_Some_2 (duration_files self) j ltac:(lia)) as [df ->].
  simpl. eauto.
Qed.

(** X3. Called with any id list, the generator uses the first four ids
    only: the pass succeeds, yielding that many tuples, exactly when each
    of the three file lists has at least that many files, and ends with
    [IndexError] otherwise. *)
Theorem generator_index_error self ids :
  let n := Nat.min 4 (length ids) in
  let enough :=
    n <= length (mel_files self) /\ n <= length (charactor_files self)
    /\ n <= length (duration_files self) in
  (enough -> exists items, generator self ids = Ok items /\ length items = n)
  /\ (~ enough -> generator self ids = Raise IndexError).
Proof.
  intros n enough. split.
  - intros (Hm & Hc & Hd).
    destruct (generator_total_min self ids Hm Hc Hd) as [items Hgen].
    exists items. split; [exact Hgen | exact (generator_length _ _ _ Hgen)].
  - intros Hno. destruct (generator self ids) as [items|e] eqn:Hgen.
    + exfalso. apply Hno. exact (generator_Ok_bounds _ _ _ Hgen).
    + now rewrite (generator_Raise _ _ _ Hgen).
Qed.

Lemma mapM_ext_result {A B} (f f' : A -> result B) l :
  (forall x, f x = f' x) -> mapM f l = mapM f' l.
Proof.
  intros Hf. induction l as [|x l IH]; simpl; [reflexivity|].
  now rewrite Hf, IH.
Qed.

Lemma mapM_fmap_result {A B C} (f : B -> result C) (g : A -> B) l :
  mapM f (g <$> l) = mapM (fun x => f (g x)) l.
Proof.
  induction l as [|x l IH]; simpl; [reflexivity|].
  change (list_fmap A B g l) with (g <$> l). now rewrite IH.
Qed.

Lemma fst_imap_pair {A} (l : list A) : fst <$> imap pair l = seq 0 (length l).
Proof.
  apply list_eq. intros i. rewrite list_lookup_fmap, list_lookup_imap.
  destruct (l !! i) as [x|] eqn:Hx; simpl.
  - symmetry. apply lookup_seq. split; [reflexivity|]. now apply lookup_lt_Some in Hx.
  - symmetry. apply lookup_seq_ge. now apply lookup_ge_None.
Qed.

Lemma mapM_imap_positional {A B} (g : nat -> result B) (l : list A) :
  mapM (fun p : nat * A => let '(i, _) := p in g i) (imap pair l)
  = mapM g (seq 0 (length l)).
Proof.
  rewrite <- fst_imap_pair, mapM_fmap_result.
  apply mapM_ext_result. now intros [i x].
Qed.

(** X12. Without [return_utt_id] the generator never reads the ids it is
    given: two id lists with the same number of entries among the first
    four give the same pass. The files are paired with the ids by position
    only. *)
Theorem generator_is_positional self ids ids' :
  return_utt_id self = false ->
  Nat.min 4 (length ids) = Nat.min 4 (length ids') ->
  generator self ids = generator self ids'.
Proof.
  intros Hrid Hlen. unfold generator. rewrite Hrid.
  pose proof (mapM_imap_positional (A:=string)
    (fun i =>
       mel_file ← index_or_raise (mel_files self) i;
       charactor_file ← index_or_raise (charactor_files self) i;
       duration_file ← index_or_raise (duration_files self) i;
       Ok [TInt (charactor_load_fn self charactor_file);
           TInt (duration_load_fn self duration_file);
           TFloat (mel_load_fn self mel_file)])) as Hpos.
  rewrite (Hpos (take 4 ids)), (Hpos (take 4 ids')).
  now rewrite !length_take, Hlen.
Qed.

(** X4. One pass over a constructed index succeeds, and for every
    position below four (and below the sample count) the tuple yielded
    there holds, in this order, the charactor, duration and mel arrays
    loaded from the files at that position, preceded by the utterance id
    when it was asked for; an index of at most four samples is covered
    completely. *)
Theorem generator_covers_first_four root cq mq dq cl ml dl T rid log self :
  __init__ root cq mq dq cl ml dl T rid = (log, Ok self) ->
  exists items,
    generator self (utt_ids self) = Ok items
    /\ (get_len_dataset self <= 4 -> length items = get_len_dataset self)
    /\ forall i, i < Nat.min 4 (get_len_dataset self) ->
       exists mf cf df,
         mel_files self !! i = Some mf
         /\ charactor_files self !! i = Some cf
         /\ duration_files self !! i = Some df
         /\ items !! i =
            Some (if rid
                  then [TStr (str_replace "-ids.npy" "" (basename cf));
                        TInt (cl cf); TInt (dl df); TFloat (ml mf)]
                  else [TInt (cl cf); TInt (dl df); TFloat (ml mf)]).
Proof.
  intros Hinit.
  destruct (init_generator_total _ _ _ _ _ _ _ _ _ _ _ Hinit) as [items Hgen].
  pose proof (generator_length _ _ _ Hgen) as Hlen.
  exists items. split; [exact Hgen|]. split.
  { unfold get_len_dataset. lia. }
  intros i Hi. unfold get_len_dataset in Hi.
  destruct (lookup_lt_is_Some_2 items i ltac:(lia)) as [item Hitem].
  destruct (generator_lookup _ _ _ _ _ Hgen Hitem)
    as (u & mf & cf & df & _ & Hu & Hmf & Hcf & Hdf & ->).
  exists mf, cf, df. rewrite Hitem.
  apply init_Ok in Hinit as (m & c & d & _ & _ & _ & ->). simpl in *.
  rewrite list_lookup_fmap, Hcf in Hu. injection Hu as <-.
  repeat split; assumption || reflexivity.
Qed.

(** *** The generator and the declared element types *)



(** *** Batch sizes *)

Lemma chunks_fuel_lookup_length {A} (n fuel : nat) (l c : list A) k :
  n <> 0 -> length l <= fuel -> chunks_fuel fuel n l !! k = Some c ->
  length c = Nat.min n (length l - k * n).
Proof.
  intros Hn. revert l k. induction fuel as [|fuel IH]; intros [|x t] k Hfuel Hc;
    try discriminate.
  cbn [chunks_fuel] in Hc. destruct k as [|k].
  - injection Hc as <-. rewrite length_take. simpl. lia.
  - simpl in Hc. apply IH in Hc.
    + rewrite Hc, length_drop. simpl. f_equal. lia.
    + rewrite length_drop. simpl in *. lia.
Qed.

Lemma chunks_fuel_count {A} (n fuel : nat) (l : list A) :
  n <> 0 -> length l <= fuel ->
  length l <= length (chunks_fuel fuel n l) * n
  /\ length (chunks_fuel fuel n l) * n < length l + n.
Proof.
  intros Hn. revert l. induction fuel as [|fuel IH]; intros [|x t] Hfuel;
    simpl in *; try lia.
  destruct (IH (drop n (x :: t))) as [IH1 IH2].
  { rewrite length_drop. simpl. lia. }
  rewrite length_drop in IH1, IH2. simpl in IH1, IH2.
  destruct (le_lt_dec n (S (length t))) as [Hle|Hlt]; [lia|].
  replace (S (length t) - n) with 0 in * by lia. split; [lia|].
  destruct (length (chunks_fuel fuel n (drop n (x :: t)))); nia.
Qed.

Lemma stacked_rows (exs : list example) :
  length (stacked exs) = 3 /\ Forall (fun c => rows_of c = length exs) (stacked exs).
Proof.
  split; [reflexivity|]. unfold stacked.
  repeat constructor; simpl; now rewrite !length_fmap.
Qed.

(** X6. For a constructed index without utterance ids and a positive batch
    size, one pass over the pipeline of [create] delivers
    ceil(n / batch_size) batches, where n is the number of generated
    examples (the sample count, but at most four): every batch has three
    components that stack [batch_size] examples each, except that the last
    batch stacks the remainder. Caching and shuffling do not change these
    numbers. *)
Theorem create_batch_sizes root cq mq dq cl ml dl T log self ac bs sh re :
  __init__ root cq mq dq cl ml dl T false = (log, Ok self) ->
  bs <> 0 ->
  let n := Nat.min 4 (get_len_dataset self) in
  exists batches,
    iterate (create self ac bs sh re) = Ok batches
    /\ n <= length batches * bs < n + bs
    /\ forall k b, batches !! k = Some b ->
         length b = 3 /\ Forall (fun c => rows_of c = Nat.min bs (n - k * bs)) b.
Proof.
  intros Hinit Hbs n.
  destruct (init_generator_total _ _ _ _ _ _ _ _ _ _ _ Hinit) as [items Hgen].
  assert (Hrid : return_utt_id self = false).
  { apply init_Ok in Hinit as (m & c & d & _ & _ & _ & ->). reflexivity. }
  eexists. split; [apply (create_batches _ _ _ _ _ _ Hrid Hbs Hgen)|].
  set (items' := if sh then _ else _).
  assert (Hlen : length items' = n).
  { unfold items', n, get_len_dataset. rewrite <- (generator_length _ _ _ Hgen).
    destruct sh; [now rewrite ds_shuffle_perm | reflexivity]. }
  split.
  - rewrite length_fmap, <- Hlen. now apply chunks_fuel_count.
  - intros k b Hb. apply list_lookup_fmap_Some in Hb as (chunk & -> & Hchunk).
    apply chunks_fuel_lookup_length in Hchunk; [|exact Hbs | reflexivity].
    destruct (stacked_rows (example_of_item <$> chunk)) as [H3 Hrows].
    split; [exact H3|]. rewrite length_fmap, Hchunk, Hlen in Hrows. exact Hrows.
Qed.





(** *** Construction with a threshold *)

(** X8. With a threshold, a charactor query containing [".npy"], and
    collaborators that honour their contract, construction succeeds
    whenever some mel file is longer than the threshold and the charactor
    and duration lists are at least as long as the mel list; surplus
    charactor or duration files go unnoticed. The sample count is the
    number of mel files longer than the threshold, and the mel files of
    the index are exactly those files in some order. *)
Theorem threshold_construction_succeeds root cq mq dq cl ml dl T rid :
  let kept := List.filter (exceeds ml T) (sorted (find_files root mq)) in
  str_in ".npy" cq = true ->
  length (find_files root mq) <= length (find_files root cq) ->
  length (find_files root mq) <= length (find_files root dq) ->
  kept <> [] ->
  exists self,
    snd (__init__ root cq mq dq cl ml dl (Some T) rid) = Ok self
    /\ mel_files self ≡ₚ kept
    /\ get_len_dataset self = length kept.
Proof.
  intros kept Hq Hc Hd Hkept.
  rewrite <- (length_sorted (find_files root mq)) in Hc, Hd.
  rewrite <- (length_sorted (find_files root cq)) in Hc.
  rewrite <- (length_sorted (find_files root dq)) in Hd.
  destruct (filter_and_bucket_Some_cases ml T (sorted (find_files root mq))
              (sorted (find_files root cq)) (sorted (find_files root dq)))
    as [(_ & idx & Hidx & Hout)|(m & c & d & Hr & Hp & Hmc & Hmd)].
  - exfalso. unfold kept_idxs in Hidx.
    apply list_elem_of_In, List.filter_In in Hidx as [Hidx _].
    apply List.in_seq in Hidx. lia.
  - rewrite (init_snd_Ok _ _ _ _ _ _ _ _ _ _ _ _ Hr).
    rewrite Hmc, Hmd, !Nat.eqb_refl, Hq. simpl.
    destruct (Nat.eqb_spec (length m) 0) as [H0|H0].
    { apply length_zero_nil in H0. subst m.
      apply Permutation_nil_l in Hp. exfalso. exact (Hkept (eq_sym Hp)). }
    eexists. split; [reflexivity|]. simpl. split; [exact Hp|].
    unfold get_len_dataset. simpl. rewrite length_fmap, Hmc. now rewrite Hp.
Qed.

(** *** Utterance ids *)

Lemma str_replace_absent old new s :
  str_in old s = false -> str_replace old new s = s.
Proof.
  unfold str_replace. induction s as [|c s IH]; intros Hin; [reflexivity|].
  cbn [str_in] in Hin. apply orb_false_iff in Hin as [Hpre Hin].
  rewrite replace_from_cons, Hpre. f_equal. now apply IH.
Qed.

(** X9. The id of a charactor file whose name does not contain
    ["-ids.npy"] (files found by another query) is the whole base name:
    nothing is stripped, the extension included. *)
Theorem utt_id_without_pattern root cq mq dq cl ml dl T rid log self i cf :
  __init__ root cq mq dq cl ml dl T rid = (log, Ok self) ->
  charactor_files self !! i = Some cf ->
  str_in "-ids.npy" (basename cf) = false ->
  utt_ids self !! i = Some (basename cf).
Proof.
  intros (m & c & d & _ & _ & _ & ->)%init_Ok. simpl. intros Hcf Hin.
  rewrite list_lookup_fmap, Hcf. simpl. now rewrite (str_replace_absent _ _ _ Hin).
Qed.

Lemma has_sep_basename p : has_sep (basename p) = false.
Proof.
  induction p as [|c t IH]; [reflexivity|]. cbn [basename].
  destruct (has_sep t) eqn:Ht; [exact IH|].
  destruct (Ascii.eqb c "/") eqn:Hc; [exact Ht|].
  cbn [has_sep]. now rewrite Hc, Ht.
Qed.

Lemma has_sep_replace_from old k s :
  has_sep s = false -> has_sep (replace_from old "" k s) = false.
Proof.
  revert k. induction s as [|c s IH]; intros k Hs; [reflexivity|].
  cbn [has_sep] in Hs. apply orb_false_iff in Hs as [Hc Hs].
  cbn [replace_from]. destruct k as [|k]; [|now apply IH].
  destruct (String.prefix old (String c s)).
  - change ("" +:+ ?x) with x. now apply IH.
  - cbn [has_sep]. rewrite Hc. now apply IH.
Qed.

(** X10. No utterance id of a constructed index contains a path
    separator. *)
Theorem utt_ids_have_no_separator root cq mq dq cl ml dl T rid log self :
  __init__ root cq mq dq cl ml dl T rid = (log, Ok self) ->
  Forall (fun u => has_sep u = false) (utt_ids self).
Proof.
  intros (m & c & d & _ & _ & _ & ->)%init_Ok. simpl.
  apply Forall_fmap, Forall_forall. intros f _. simpl.
  apply has_sep_replace_from, has_sep_basename.
Qed.

Lemma has_sep_append_sep dir name : has_sep (dir +:+ "/" +:+ name) = true.
Proof.
  induction dir as [|c dir IH]; [reflexivity|].
  rewrite append_cons. cbn [has_sep]. rewrite IH. apply orb_true_r.
Qed.

Lemma basename_join dir name :
  has_sep name = false -> basename (dir +:+ "/" +:+ name) = name.
Proof.
  intros Hname. induction dir as [|c dir IH].
  - change ("" +:+ "/" +:+ name) with (String "/" name).
    cbn [basename]. now rewrite Hname.
  - rewrite append_cons. cbn [basename]. now rewrite has_sep_append_sep.
Qed.

(** X11. The id depends on the file name only: charactor files of the same
    name in different directories of a constructed index get the same
    utterance id. *)
Theorem utt_id_ignores_directory
    root cq mq dq cl ml dl T rid log self i j dir1 dir2 name :
  __init__ root cq mq dq cl ml dl T rid = (log, Ok self) ->
  has_sep name = false ->
  charactor_files self !! i = Some (dir1 +:+ "/" +:+ name) ->
  charactor_files self !! j = Some (dir2 +:+ "/" +:+ name) ->
  utt_ids self !! i = Some (str_replace "-ids.npy" "" name)
  /\ utt_ids self !! j = utt_ids self !! i.
Proof.
  intros (m & c & d & _ & _ & _ & ->)%init_Ok Hname. simpl. intros Hi Hj.
  rewrite !list_lookup_fmap, Hi, Hj. simpl.
  now rewrite !basename_join.
Qed.

(** *** Small invariants of construction *)

(** X13. A constructed index is never empty, and one pass of the generator
    over it yields at least one tuple. *)
Theorem constructed_index_is_not_empty root cq mq dq cl ml dl T rid log self :
  __init__ root cq mq dq cl ml dl T rid = (log, Ok self) ->
  get_len_dataset self <> 0
  /\ exists item items, generator self (utt_ids self) = Ok (item :: items).
Proof.
  intros Hinit.
  destruct (init_generator_total _ _ _ _ _ _ _ _ _ _ _ Hinit) as [items Hgen].
  pose proof (generator_length _ _ _ Hgen) as Hlen.
  destruct (init_lengths _ _ _ _ _ _ _ _ _ _ _ Hinit) as (Hu & Hm & _).
  assert (Hne : length (mel_files self) <> 0).
  { apply init_Ok in Hinit as (m & c & d & _ & Hcheck & _ & ->).
    now apply check_counts_Ok in Hcheck as (Hne & _). }
  unfold get_len_dataset. split; [lia|].
  destruct items as [|item items]; [cbn [length] in Hlen; lia|]. eauto.
Qed.

Lemma filter_all {A} (p : A -> bool) (l : list A) :
  (forall x, p x = true) -> List.filter p l = l.
Proof.
  intros Hp. induction l as [|x l IH]; simpl; [reflexivity|].
  now rewrite Hp, IH.
Qed.

(** X14. A negative threshold filters nothing: every mel file passes it
    and no warning is logged, whatever the outcome of construction (the
    files are still regrouped by mel length). *)
Theorem negative_threshold_drops_nothing root cq mq dq cl ml dl T rid :
  (T < 0)%Z ->
  List.filter (exceeds ml T) (sorted (find_files root mq)) = sorted (find_files root mq)
  /\ fst (__init__ root cq mq dq cl ml dl (Some T) rid) = [].
Proof.
  intros HT.
  assert (Hall : List.filter (exceeds ml T) (sorted (find_files root mq))
                 = sorted (find_files root mq)).
  { apply filter_all. intros f. unfold exceeds. apply Z.ltb_lt. lia. }
  split; [exact Hall|].
  rewrite init_fst, filter_and_bucket_fst, threshold_filter_log, Hall.
  now rewrite Nat.eqb_refl.
Qed.

End Dataset.

(** ** Sanity checks of the library models *)

Example basename_ex :
  basename "dump/train/ids/LJ001-0001-ids.npy" = "LJ001-0001-ids.npy".
Proof. reflexivity. Qed.

Example str_replace_ex :
  str_replace "-ids.npy" "" "LJ001-0001-ids.npy" = "LJ001-0001"
  /\ str_replace "-ids.npy" "" "a-ids.npy-ids.npy" = "a".
Proof. split; reflexivity. Qed.

Example str_in_ex :
  str_in ".npy" "*-ids.npy" = true /\ str_in ".npy" "*-ids.txt" = false.
Proof. split; reflexivity. Qed.

Example sorted_ex : sorted ["b/2"; "a/10"; "a/1"] = ["a/1"; "a/10"; "b/2"].
Proof. reflexivity. Qed.

Example groupby_ex :
  groupby [(0, 3); (1, 3); (2, 5); (3, 3)] = [[(0, 3); (1, 3)]; [(2, 5)]; [(3, 3)]].
Proof. reflexivity. Qed.

Example chunks_ex : chunks 2 [1; 2; 3; 4; 5] = [[1; 2]; [3; 4]; [5]].
Proof. reflexivity. Qed.

Example take_idx_ex :
  take_idx ["a"; "b"; "c"] [2; 0] = Ok ["c"; "a"]
  /\ take_idx ["a"; "b"; "c"] [0; 3] = Raise IndexError.
Proof. split; reflexivity. Qed.

(** ** The example collaborators honour the contract *)

Global Instance stable_le_total lens : Total (stable_le lens).
Proof. intros i j. unfold stable_le. lia. Qed.

Global Instance ties_reversed_le_total lens : Total (ties_reversed_le lens).
Proof. intros i j. unfold ties_reversed_le. lia. Qed.

Lemma take_idx_key (lens idxs out : list nat) :
  take_idx lens idxs = Ok out -> out = key lens <$> idxs.
Proof.
  intros Hout%take_idx_Ok. induction Hout as [|i x idxs out Hx _ IH];
    [reflexivity|].
  cbn [fmap list_fmap]. unfold key at 1. rewrite Hx. simpl. now f_equal.
Qed.

Lemma sorted_by_key (R : relation nat) (lens idxs out : list nat) :
  (forall i j, R i j -> key lens i <= key lens j) ->
  Sorted R idxs -> take_idx lens idxs = Ok out -> Sorted le out.
Proof.
  intros HR Hsorted ->%take_idx_key. eapply Sorted_fmap; eassumption.
Qed.

Lemma argsort_stable_perm lens : argsort_stable lens ≡ₚ seq 0 (length lens).
Proof. apply merge_sort_Permutation. Qed.

Lemma argsort_stable_sorted lens out :
  take_idx lens (argsort_stable lens) = Ok out -> Sorted le out.
Proof.
  apply (sorted_by_key (stable_le lens)).
  - unfold stable_le. lia.
  - apply Sorted_merge_sort, _.
Qed.



Lemma reverse_groups_perm gs : reverse_groups gs ≡ₚ gs.
Proof. apply reverse_Permutation. Qed.


Lemma reverse_items_perm n b items : reverse_items n b items ≡ₚ items.
Proof. apply reverse_Permutation. Qed.


(** ** The claims on the example data *)

Local Notation "'construct' tree mels" :=
  (__init__ Z (find_in tree) argsort_stable reverse_groups
     "dump" "*-ids.npy" "*-norm-feats.npy" "*-durations.npy"
     (load_ints ints5) (load_mel mels) (load_ints ints5))
  (at level 10, tree at level 9, mels at level 9).

(** C1. The index built from five utterances has five samples, but one
    full pass of the generator yields four tuples only: the pass is driven
    by [utt_ids[:4]]. *)
Theorem generator_stops_after_four :
  exists self items,
    construct tree5 mels5 None false = ([], Ok self)
    /\ get_len_dataset Z self = 5
    /\ generator Z self (utt_ids Z self) = Ok items
    /\ length items = 4.
Proof.
  eexists. eexists. split; [vm_compute; reflexivity|].
  split; [reflexivity|]. split; [vm_compute; reflexivity | reflexivity].
Qed.

Lemma get_len_dataset_counts_witness :
  exists self,
    construct tree5 mels5 None false = ([], Ok self)
    /\ get_len_dataset Z self = 5.
Proof.
  assert (H : exists self, construct tree5 mels5 None false = ([], Ok self))
    by (eexists; vm_compute; reflexivity).
  destruct H as [self H]. exists self. split; [exact H|].
  destruct (get_len_dataset_counts Z (find_in tree5) argsort_stable reverse_groups
              _ _ _ _ _ _ _ _ _ _ _ H) as (_ & _ & _ & _ & HN).
  apply (HN eq_refl 5); reflexivity.
Defined.


Local Notation "'filtered' mels T" :=
  (threshold_filter Z (load_mel mels) T
     (sorted (find_in tree5 "dump" "*-norm-feats.npy"))
     (sorted (find_in tree5 "dump" "*-ids.npy"))
     (sorted (find_in tree5 "dump" "*-durations.npy")))
  (at level 10, mels at level 9, T at level 9).



Lemma threshold_retained_and_warned_witness :
  exists self,
    construct tree5 mels5 (Some 2%Z) false = ([Warning_filtered 5 4], Ok self)
    /\ Forall (fun f => (2 < Z.of_nat (shape0 (load_mel mels5 f)))%Z) (mel_files Z self).
Proof.
  assert (H : exists self, construct tree5 mels5 (Some 2%Z) false
                           = ([Warning_filtered 5 4], Ok self))
    by (eexists; vm_compute; reflexivity).
  destruct H as [self H]. exists self. split; [exact H|].
  destruct (threshold_retained_and_warned Z (find_in tree5) argsort_stable
              reverse_groups _ _ _ _ _ _ _ _ _ _ _ H) as (Hkept & _ & _).
  now apply Hkept.
Defined.

Lemma construction_assertions_witness :
  snd (construct tree_ids_only mels5 None false)
  = Raise (AssertionError (NoMelFiles "dump"))
  /\ snd (construct tree_short mels_short None false)
     = Raise (AssertionError (CountMismatch 2 1 2)).
Proof.
  split.
  - apply (construction_assertions Z (find_in tree_ids_only) argsort_stable
             reverse_groups argsort_stable_perm argsort_stable_sorted
             reverse_groups_perm "dump" "*-ids.npy" "*-norm-feats.npy"
             "*-durations.npy" (load_ints ints5) (load_mel mels5)
             (load_ints ints5) None false).
    reflexivity.
  - apply (construction_assertions Z (find_in tree_short) argsort_stable
             reverse_groups argsort_stable_perm argsort_stable_sorted
             reverse_groups_perm "dump" "*-ids.npy" "*-norm-feats.npy"
             "*-durations.npy" (load_ints ints5) (load_mel mels_short)
             (load_ints ints5) None false); [reflexivity|].
    vm_compute. repeat split; try discriminate. intros [H _]. discriminate.
Defined.

(** C4, the claim as stated fails: with one charactor file and no mel or
    duration file the three counts differ, yet the failure is the no-data
    assertion and not the count-mismatch one. *)
Lemma construction_assertions_counterexample :
  length (find_in tree_ids_only "dump" "*-ids.npy") = 1
  /\ length (find_in tree_ids_only "dump" "*-norm-feats.npy") = 0
  /\ length (find_in tree_ids_only "dump" "*-durations.npy") = 0
  /\ snd (construct tree_ids_only mels5 None false)
     = Raise (AssertionError (NoMelFiles "dump"))
  /\ forall m c d,
       snd (construct tree_ids_only mels5 None false)
       <> Raise (AssertionError (CountMismatch m c d)).
Proof.
  repeat split; try reflexivity. intros m c d. vm_compute. discriminate.
Qed.

Lemma missing_npy_unbound_witness :
  snd (__init__ Z (find_in tree_txt) argsort_stable reverse_groups
         "dump" "*-ids.txt" "*-norm-feats.npy" "*-durations.npy"
         (load_ints ints5) (load_mel mels5) (load_ints ints5) None false)
  = Raise (UnboundLocalError "utt_ids").
Proof.
  apply (missing_npy_unbound Z (find_in tree_txt) argsort_stable reverse_groups
           argsort_stable_perm argsort_stable_sorted reverse_groups_perm);
    (reflexivity || (vm_compute; discriminate)).
Defined.

Lemma threshold_hides_count_mismatch_witness :
  snd (construct tree_short mels_short (Some 0%Z) false) = Raise IndexError.
Proof.
  apply (threshold_hides_count_mismatch Z (find_in tree_short) argsort_stable
           reverse_groups argsort_stable_perm argsort_stable_sorted
           reverse_groups_perm).
  exists 1. split; [|left; vm_compute; lia].
  vm_compute. right. left.
Defined.

(** C9, the claim as stated fails: with two mel files and one charactor
    file, a threshold that keeps only the first mel file lets construction
    succeed; neither [IndexError] nor the count-mismatch assertion is
    raised. *)
Lemma threshold_hides_count_mismatch_counterexample :
  length (find_in tree_short "dump" "*-ids.npy") = 1
  /\ length (find_in tree_short "dump" "*-norm-feats.npy") = 2
  /\ exists self,
       construct tree_short mels_short (Some 5%Z) false
       = ([Warning_filtered 2 1], Ok self)
       /\ mel_files Z self = ["dump/LJ001-norm-feats.npy"]
       /\ charactor_files Z self = ["dump/LJ001-ids.npy"].
Proof.
  split; [reflexivity|]. split; [reflexivity|].
  eexists. split; [vm_compute; reflexivity|]. split; reflexivity.
Qed.




(** ** The further properties on the example data *)

Lemma init_keeps_triples_witness :
  exists self j,
    construct tree5 mels5 (Some 2%Z) false = ([Warning_filtered 5 4], Ok self)
    /\ utt_ids Z self !! 0 = Some "LJ002"
    /\ sorted (find_in tree5 "dump" "*-norm-feats.npy") !! j
       = Some "dump/LJ002-norm-feats.npy"
    /\ sorted (find_in tree5 "dump" "*-ids.npy") !! j = Some "dump/LJ002-ids.npy"
    /\ sorted (find_in tree5 "dump" "*-durations.npy") !! j
       = Some "dump/LJ002-durations.npy".
Proof.
  assert (H : exists self,
             construct tree5 mels5 (Some 2%Z) false = ([Warning_filtered 5 4], Ok self)
             /\ mel_files Z self !! 0 = Some "dump/LJ002-norm-feats.npy"
             /\ charactor_files Z self !! 0 = Some "dump/LJ002-ids.npy"
             /\ duration_files Z self !! 0 = Some "dump/LJ002-durations.npy")
    by (eexists; split; [|split; [|split]]; vm_compute; reflexivity).
  destruct H as (self & H & Hm & Hc & Hd).
  destruct (init_keeps_triples Z (find_in tree5) argsort_stable reverse_groups
              _ _ _ _ _ _ _ _ _ _ _ _ _ _ _ H Hm Hc Hd) as (Hu & j & Hjm & Hjc & Hjd & _).
  exists self, j. repeat split; assumption.
Defined.

Lemma no_threshold_keeps_sorted_order_witness :
  exists self,
    construct tree5 mels5 None false = ([], Ok self)
    /\ charactor_files Z self ≡ₚ find_in tree5 "dump" "*-ids.npy"
    /\ Sorted (fun a b => String.leb a b = true) (charactor_files Z self).
Proof.
  assert (H : exists self, construct tree5 mels5 None false = ([], Ok self))
    by (eexists; vm_compute; reflexivity).
  destruct H as [self H]. exists self. split; [exact H|].
  destruct (no_threshold_keeps_sorted_order Z (find_in tree5) argsort_stable
              reverse_groups _ _ _ _ _ _ _ _ _ _ H) as (_ & _ & Hc & _).
  exact Hc.
Defined.

Lemma generator_index_error_witness :
  exists self,
    construct tree5 mels5 None false = ([], Ok self)
    /\ (exists items, generator Z self ["a"; "b"] = Ok items /\ length items = 2)
    /\ generator Z self ["a"; "b"; "c"; "d"; "e"; "f"] =
       generator Z self ["a"; "b"; "c"; "d"]
    /\ exists short,
         snd (construct tree_short mels_short (Some 5%Z) false) = Ok short
         /\ generator Z short ["a"; "b"] = Raise IndexError.
Proof.
  assert (H : exists self, construct tree5 mels5 None false = ([], Ok self))
    by (eexists; vm_compute; reflexivity).
  destruct H as [self H]. exists self. split; [exact H|]. split.
  { apply (generator_index_error Z self ["a"; "b"]).
    vm_compute in H. injection H as <-. vm_compute. lia. }
  split.
  { vm_compute in H. injection H as <-. reflexivity. }
  assert (Hs : exists short,
             snd (construct tree_short mels_short (Some 5%Z) false) = Ok short
             /\ length (mel_files Z short) = 1)
    by (eexists; split; vm_compute; reflexivity).
  destruct Hs as (short & Hs & Hlen). exists short. split; [exact Hs|].
  apply (generator_index_error Z short ["a"; "b"]). rewrite Hlen. simpl. lia.
Defined.

Lemma generator_covers_first_four_witness :
  exists self items,
    construct tree5 mels5 None true = ([], Ok self)
    /\ generator Z self (utt_ids Z self) = Ok items
    /\ items !! 3 =
       Some [TStr "LJ004"; TInt (load_ints ints5 "dump/LJ004-ids.npy");
             TInt (load_ints ints5 "dump/LJ004-durations.npy");
             TFloat (load_mel mels5 "dump/LJ004-norm-feats.npy")].
Proof.
  assert (H : exists self,
             construct tree5 mels5 None true = ([], Ok self)
             /\ get_len_dataset Z self = 5
             /\ mel_files Z self !! 3 = Some "dump/LJ004-norm-feats.npy"
             /\ charactor_files Z self !! 3 = Some "dump/LJ004-ids.npy"
             /\ duration_files Z self !! 3 = Some "dump/LJ004-durations.npy")
    by (eexists; split; [|split; [|split; [|split]]]; vm_compute; reflexivity).
  destruct H as (self & H & Hn & Hm & Hc & Hd).
  destruct (generator_covers_first_four Z (find_in tree5) argsort_stable
              reverse_groups _ _ _ _ _ _ _ _ _ _ _ H) as (items & Hgen & _ & Hcover).
  exists self, items. split; [exact H|]. split; [exact Hgen|].
  destruct (Hcover 3) as (mf & cf & df & Hm' & Hc' & Hd' & Hitem).
  { rewrite Hn. simpl. lia. }
  rewrite Hm in Hm'. rewrite Hc in Hc'. rewrite Hd in Hd'.
  injection Hm' as <-. injection Hc' as <-. injection Hd' as <-.
  exact Hitem.
Defined.

Lemma create_batch_sizes_witness :
  exists self batches,
    construct tree5 mels5 None false = ([], Ok self)
    /\ iterate (create Z 0%Z reverse_items self true 3 true false) = Ok batches
    /\ length batches = 2
    /\ (forall b, batches !! 0 = Some b -> Forall (fun c => rows_of Z c = 3) b)
    /\ (forall b, batches !! 1 = Some b -> Forall (fun c => rows_of Z c = 1) b).
Proof.
  assert (H : exists self, construct tree5 mels5 None false = ([], Ok self)
                           /\ get_len_dataset Z self = 5)
    by (eexists; split; vm_compute; reflexivity).
  destruct H as (self & H & Hn).
  destruct (create_batch_sizes Z 0%Z (find_in tree5) argsort_stable reverse_groups
              reverse_items reverse_items_perm _ _ _ _ _ _ _ _ _ self true 3 true false
              H ltac:(lia)) as (batches & Hit & Hcount & Hsizes).
  rewrite Hn in Hcount, Hsizes. simpl in Hcount, Hsizes.
  exists self, batches. split; [exact H|]. split; [exact Hit|].
  split; [lia|]. split; intros b Hb; apply Hsizes in Hb as [_ Hb]; exact Hb.
Defined.


Lemma threshold_construction_succeeds_witness :
  length (find_in tree_surplus "dump" "*-ids.npy") = 3
  /\ exists self,
       snd (__init__ Z (find_in tree_surplus) argsort_stable reverse_groups
              "dump" "*-ids.npy" "*-norm-feats.npy" "*-durations.npy"
              (load_ints ints5) (load_mel mels5) (load_ints ints5) (Some 2%Z) false)
       = Ok self
       /\ get_len_dataset Z self = 2.
Proof.
  split; [reflexivity|].
  destruct (threshold_construction_succeeds Z (find_in tree_surplus) argsort_stable
              reverse_groups argsort_stable_perm argsort_stable_sorted
              reverse_groups_perm "dump" "*-ids.npy" "*-norm-feats.npy"
              "*-durations.npy" (load_ints ints5) (load_mel mels5) (load_ints ints5)
              2%Z false) as (self & Hself & _ & Hn);
    try (vm_compute; (reflexivity || lia || discriminate)).
  exists self. split; [exact Hself | exact Hn].
Defined.

Lemma utt_id_without_pattern_witness :
  exists self,
    __init__ Z (find_in tree_chars) argsort_stable reverse_groups
      "dump" "*-chars.npy" "*-norm-feats.npy" "*-durations.npy"
      (load_ints ints5) (load_mel mels5) (load_ints ints5) None false
    = ([], Ok self)
    /\ utt_ids Z self !! 0 = Some "LJ001-chars.npy".
Proof.
  assert (H : exists self,
             __init__ Z (find_in tree_chars) argsort_stable reverse_groups
               "dump" "*-chars.npy" "*-norm-feats.npy" "*-durations.npy"
               (load_ints ints5) (load_mel mels5) (load_ints ints5) None false
             = ([], Ok self)
             /\ charactor_files Z self !! 0 = Some "dump/LJ001-chars.npy")
    by (eexists; split; vm_compute; reflexivity).
  destruct H as (self & H & Hcf). exists self. split; [exact H|].
  apply (utt_id_without_pattern Z (find_in tree_chars) argsort_stable reverse_groups
           _ _ _ _ _ _ _ _ _ _ self 0 "dump/LJ001-chars.npy" H Hcf).
  reflexivity.
Defined.

Lemma utt_ids_have_no_separator_witness :
  exists self,
    construct tree5 mels5 None false = ([], Ok self)
    /\ Forall (fun u => has_sep u = false) (utt_ids Z self).
Proof.
  assert (H : exists self, construct tree5 mels5 None false = ([], Ok self))
    by (eexists; vm_compute; reflexivity).
  destruct H as [self H]. exists self. split; [exact H|].
  exact (utt_ids_have_no_separator Z (find_in tree5) argsort_stable reverse_groups
           _ _ _ _ _ _ _ _ _ _ _ H).
Defined.

Lemma utt_id_ignores_directory_witness :
  exists self,
    construct tree_nested mels5 None false = ([], Ok self)
    /\ utt_ids Z self !! 0 = Some "LJ001"
    /\ utt_ids Z self !! 1 = utt_ids Z self !! 0.
Proof.
  assert (H : exists self,
             construct tree_nested mels5 None false = ([], Ok self)
             /\ charactor_files Z self !! 0 = Some ("dump/a" +:+ "/" +:+ "LJ001-ids.npy")
             /\ charactor_files Z self !! 1 = Some ("dump/b" +:+ "/" +:+ "LJ001-ids.npy"))
    by (eexists; split; [|split]; vm_compute; reflexivity).
  destruct H as (self & H & H0 & H1). exists self. split; [exact H|].
  exact (utt_id_ignores_directory Z (find_in tree_nested) argsort_stable reverse_groups
           _ _ _ _ _ _ _ _ _ _ self 0 1 "dump/a" "dump/b" "LJ001-ids.npy"
           H eq_refl H0 H1).
Defined.

Lemma generator_is_positional_witness :
  exists self,
    construct tree5 mels5 None false = ([], Ok self)
    /\ generator Z self ["x"; "y"; "z"; "w"; "v"] = generator Z self (utt_ids Z self).
Proof.
  assert (H : exists self, construct tree5 mels5 None false = ([], Ok self)
                           /\ return_utt_id Z self = false
                           /\ length (utt_ids Z self) = 5)
    by (eexists; split; [|split]; vm_compute; reflexivity).
  destruct H as (self & H & Hrid & Hn). exists self. split; [exact H|].
  apply (generator_is_positional Z self _ _ Hrid). now rewrite Hn.
Defined.

Lemma constructed_index_is_not_empty_witness :
  exists self,
    construct tree5 mels5 (Some 4%Z) false = ([Warning_filtered 5 2], Ok self)
    /\ get_len_dataset Z self <> 0.
Proof.
  assert (H : exists self,
             construct tree5 mels5 (Some 4%Z) false = ([Warning_filtered 5 2], Ok self))
    by (eexists; vm_compute; reflexivity).
  destruct H as [self H]. exists self. split; [exact H|].
  exact (proj1 (constructed_index_is_not_empty Z (find_in tree5) argsort_stable
                  reverse_groups _ _ _ _ _ _ _ _ _ _ _ H)).
Defined.

Lemma negative_threshold_drops_nothing_witness :
  fst (construct tree5 mels5 (Some (-1)%Z) false) = [].
Proof.
  exact (proj2 (negative_threshold_drops_nothing Z (find_in tree5) argsort_stable
                  reverse_groups "dump" "*-ids.npy" "*-norm-feats.npy" "*-durations.npy"
                  (load_ints ints5) (load_mel mels5) (load_ints ints5) (-1)%Z false
                  eq_refl)).
Defined.
